(** * URL shortener: the Go redirect service and the Node.js metadata service

    A shallow embedding of [go-service/main.go] (short-code allocation,
    redirect lookup, click notification) and of the metadata service
    ([fetchUrlMetadata] and the [POST /api/metadata] handler), with the
    properties stated about them. *)

From Stdlib Require Import NArith String Ascii List Lia Bool.
From stdpp Require Import base option gmap strings list.
Import ListNotations.

Local Open Scope string_scope.

(** ** The redirect service (Go) *)
Module Go.

(** *** encoding/base64, URLEncoding

    [base64.URLEncoding] is the standard library's padded encoding over the
    alphabet [encodeURL]; [EncodeToString] is transcribed from
    [Encoding.Encode]: whole 3-byte groups first, then the 1 or 2 byte rest
    with its padding. *)

Definition encodeURL : string :=
  "ABCDEFGHIJKLMNOPQRSTUVWXYZabcdefghijklmnopqrstuvwxyz0123456789-_".

Definition padChar : ascii := "="%char.

(** [enc.encode[i & 0x3F]] *)
Definition enc (i : N) : ascii :=
  match String.get (N.to_nat (N.land i 63)) encodeURL with
  | Some c => c
  | None => padChar
  end.

Definition b2N (b : Byte.byte) : N := Byte.to_N b.

Definition quantum (b0 b1 b2 : Byte.byte) : N :=
  N.lor (N.lor (N.shiftl (b2N b0) 16) (N.shiftl (b2N b1) 8)) (b2N b2).

Fixpoint EncodeToString (src : list Byte.byte) : string :=
  match src with
  | b0 :: b1 :: b2 :: rest =>
      let val := quantum b0 b1 b2 in
      String (enc (N.shiftr val 18))
        (String (enc (N.shiftr val 12))
           (String (enc (N.shiftr val 6))
              (String (enc val) (EncodeToString rest))))
  | [b0; b1] =>
      let val := N.lor (N.shiftl (b2N b0) 16) (N.shiftl (b2N b1) 8) in
      String (enc (N.shiftr val 18))
        (String (enc (N.shiftr val 12))
           (String (enc (N.shiftr val 6)) (String padChar EmptyString)))
  | [b0] =>
      let val := N.shiftl (b2N b0) 16 in
      String (enc (N.shiftr val 18))
        (String (enc (N.shiftr val 12))
           (String padChar (String padChar EmptyString)))
  | [] => EmptyString
  end.

(** The URL-safe alphabet, given by character classes rather than by the
    table: upper and lower case letters, digits, minus and underscore. *)
Definition is_urlsafe (c : ascii) : bool :=
  let n := N_of_ascii c in
  ((65 <=? n) && (n <=? 90) || (97 <=? n) && (n <=? 122)
   || (48 <=? n) && (n <=? 57) || (n =? 45) || (n =? 95))%N.

Fixpoint all_chars (p : ascii -> bool) (s : string) : bool :=
  match s with
  | EmptyString => true
  | String c r => p c && all_chars p r
  end.

(** *** crypto/rand

    The random source is a stream of bytes; [rand.Read] on a slice of
    length [n] takes the next [n] of them. *)
Definition rand_Read (src : nat -> Byte.byte) (pos n : nat) : list Byte.byte :=
  map src (seq pos n).

(** *** net/http.Redirect

    [c.Redirect(code, location)] of gin renders through
    [http.Redirect(w, req, location, code)], which does not write
    [location] as it is: a URL in which [url.Parse] finds neither scheme
    nor host is made an absolute path against the path of the request, and
    every byte outside ASCII is written as [%xx]. The functions below are
    transcribed from the standard library ([path.Split], [path.Clean],
    [strings.Index], [strings.HasSuffix], [hexEscapeNonASCII],
    [http.Redirect]); of the result of [url.Parse] only what
    [http.Redirect] reads is kept. *)
Record ParsedURL := { Scheme : string; Host : string }.

Definition is_slash (c : ascii) : bool := Ascii.eqb c "/"%char.

Fixpoint contains_slash (s : string) : bool :=
  match s with
  | EmptyString => false
  | String c r => is_slash c || contains_slash r
  end.

(** [strings.HasSuffix(s, "/")] *)
Fixpoint has_trailing_slash (s : string) : bool :=
  match s with
  | EmptyString => false
  | String c EmptyString => is_slash c
  | String _ r => has_trailing_slash r
  end.

(** [dir, _ := path.Split(p)]: [p] up to and including its last slash. *)
Fixpoint path_dir (p : string) : string :=
  match p with
  | EmptyString => EmptyString
  | String c r =>
      if is_slash c || contains_slash r then String c (path_dir r)
      else EmptyString
  end.

(** [if i := strings.Index(url, "?"); i != -1 { url, query = url[:i], url[i:] }] *)
Fixpoint cut_query (url : string) : string * string :=
  match url with
  | EmptyString => (EmptyString, EmptyString)
  | String c r =>
      if Ascii.eqb c "?"%char then (EmptyString, url)
      else let '(u, q) := cut_query r in (String c u, q)
  end.

(** The elements of a path: what lies between its slashes. *)
Fixpoint path_elements (p : string) : list string :=
  match p with
  | EmptyString => [EmptyString]
  | String c r =>
      if is_slash c then EmptyString :: path_elements r
      else match path_elements r with
           | e :: es => String c e :: es
           | [] => [String c EmptyString]
           end
  end.

(** The loop of [path.Clean] over the elements, with the elements written
    so far, last first: empty and [.] elements are skipped, [..] takes back
    the last element written when there is one to take back, is dropped at
    the root and is written otherwise. *)
Fixpoint clean_elements (rooted : bool) (out : list string)
    (els : list string) : list string :=
  match els with
  | [] => out
  | e :: rest =>
      if String.eqb e "" || String.eqb e "." then clean_elements rooted out rest
      else if String.eqb e ".." then
        match out with
        | top :: out' =>
            if String.eqb top ".." then clean_elements rooted (e :: out) rest
            else clean_elements rooted out' rest
        | [] =>
            if rooted then clean_elements rooted [] rest
            else clean_elements rooted [e] rest
        end
      else clean_elements rooted (e :: out) rest
  end.

Fixpoint join_slash (els : list string) : string :=
  match els with
  | [] => EmptyString
  | [e] => e
  | e :: rest => e ++ "/" ++ join_slash rest
  end.

(** [path.Clean] *)
Definition path_Clean (p : string) : string :=
  match p with
  | EmptyString => "."
  | String c _ =>
      let rooted := is_slash c in
      let out := join_slash (rev (clean_elements rooted [] (path_elements p))) in
      if rooted then "/" ++ out
      else if String.eqb out "" then "." else out
  end.

Definition hex_digit (n : N) : ascii :=
  match String.get (N.to_nat n) "0123456789abcdef" with
  | Some c => c
  | None => "0"%char
  end.

(** [hexEscapeNonASCII] *)
Fixpoint hexEscapeNonASCII (s : string) : string :=
  match s with
  | EmptyString => EmptyString
  | String c r =>
      let n := N_of_ascii c in
      if (128 <=? n)%N then
        String "%"%char (String (hex_digit (N.shiftr n 4))
                      (String (hex_digit (N.land n 15)) (hexEscapeNonASCII r)))
      else String c (hexEscapeNonASCII r)
  end.

Definition is_ASCII (s : string) : bool :=
  all_chars (fun c => (N_of_ascii c <? 128)%N) s.

(** A header value as [Header.Write] sends it: [headerNewlineToSpace]
    turns each line feed and carriage return into a space, and
    [textproto.TrimString] drops the spaces and tabs at both ends. *)
Definition is_line_break (c : ascii) : bool :=
  Ascii.eqb c "010"%char || Ascii.eqb c "013"%char.

Definition is_blank (c : ascii) : bool :=
  Ascii.eqb c " "%char || Ascii.eqb c "009"%char || is_line_break c.

Fixpoint headerNewlineToSpace (s : string) : string :=
  match s with
  | EmptyString => EmptyString
  | String c r =>
      String (if is_line_break c then " "%char else c) (headerNewlineToSpace r)
  end.

Fixpoint trim_left (s : string) : string :=
  match s with
  | EmptyString => EmptyString
  | String c r => if is_blank c then trim_left r else s
  end.

Fixpoint trim_right (s : string) : string :=
  match s with
  | EmptyString => EmptyString
  | String c r =>
      match trim_right r with
      | EmptyString => if is_blank c then EmptyString else String c EmptyString
      | r' => String c r'
      end
  end.

Definition TrimString (s : string) : string := trim_right (trim_left s).

Definition header_value (s : string) : string :=
  TrimString (headerNewlineToSpace s).

(** A string that [header_value] leaves as it is: no line break in it
    and no blank at either end. *)
Fixpoint last_char (s : string) : option ascii :=
  match s with
  | EmptyString => None
  | String c EmptyString => Some c
  | String _ r => last_char r
  end.

Definition header_clean (s : string) : bool :=
  all_chars (fun c => negb (is_line_break c)) s
  && match s with
     | EmptyString => true
     | String c _ => negb (is_blank c)
     end
  && match last_char s with
     | Some c => negb (is_blank c)
     | None => true
     end.

(** The [Location] header of the response, given what [url.Parse] made of
    [url] ([None] for an error) and the path of the request: what
    [http.Redirect] sets, as it is sent. *)
Definition Location (parsed : option ParsedURL) (oldpath url : string)
  : string :=
  let url :=
    match parsed with
    | Some u =>
        if String.eqb (Scheme u) "" && String.eqb (Host u) "" then
          let oldpath := if String.eqb oldpath "" then "/" else oldpath in
          let url :=
            match url with
            | String c _ => if is_slash c then url else path_dir oldpath ++ url
            | EmptyString => path_dir oldpath ++ url
            end in
          let '(url, query) := cut_query url in
          let trailing := has_trailing_slash url in
          let url := path_Clean url in
          let url :=
            if trailing && negb (has_trailing_slash url) then url ++ "/"
            else url in
          url ++ query
        else url
    | None => url
    end in
  header_value (hexEscapeNonASCII url).

(** *** The [urls] table and the service state

    [short_code] is [UNIQUE NOT NULL], so the table is a finite map from
    short code to long URL ([id] and [created_at] are written by SQLite
    and never read by the service).  The environment decides, statement by
    statement, whether the database answers or reports an error; it also
    holds what [url.Parse] makes of a URL. *)
Record World := {
  rnd : nat -> Byte.byte;    (* the bytes crypto/rand delivers *)
  dbfail : nat -> bool;      (* does the n-th statement fail? *)
  url_Parse : string -> option ParsedURL   (* net/url.Parse; None: an error *)
}.

Inductive logline :=
| LogCreated (code long_url : string)
| LogSendError
| LogStatus (status : nat)
| LogSent (code : string).

Record ClickEvent := { ev_short_code : string; ev_clicked_at : string }.

Record State := {
  urls : gmap string string;
  rpos : nat;                (* random bytes consumed so far *)
  tick : nat;                (* statements sent to the database so far *)
  logs : list logline;
  posts : list ClickEvent    (* requests sent to pythonServiceURL/api/events *)
}.

Definition set_urls (m : gmap string string) (s : State) : State :=
  {| urls := m; rpos := rpos s; tick := tick s; logs := logs s; posts := posts s |}.
Definition advance_rand (n : nat) (s : State) : State :=
  {| urls := urls s; rpos := rpos s + n; tick := tick s; logs := logs s; posts := posts s |}.
Definition next_tick (s : State) : State :=
  {| urls := urls s; rpos := rpos s; tick := S (tick s); logs := logs s; posts := posts s |}.
Definition add_log (l : logline) (s : State) : State :=
  {| urls := urls s; rpos := rpos s; tick := tick s; logs := logs s ++ [l]; posts := posts s |}.
Definition add_post (e : ClickEvent) (s : State) : State :=
  {| urls := urls s; rpos := rpos s; tick := tick s; logs := logs s; posts := posts s ++ [e] |}.

Inductive dberror := ErrNoRows | ErrOther.

(** The number of rows [WHERE short_code = ?], as the COUNT query
    reports it. *)
Definition count_rows (m : gmap string string) (code : string) : nat :=
  match m !! code with Some _ => 1 | None => 0 end.

Definition query_count (w : World) (s : State) (code : string)
  : State * (dberror + nat) :=
  (next_tick s,
   if dbfail w (tick s) then inl ErrOther else inr (count_rows (urls s) code)).

(** [SELECT long_url FROM urls WHERE short_code = ?] *)
Definition query_long_url (w : World) (s : State) (code : string)
  : State * (dberror + string) :=
  (next_tick s,
   if dbfail w (tick s) then inl ErrOther
   else match urls s !! code with
        | Some u => inr u
        | None => inl ErrNoRows
        end).

(** [INSERT INTO urls (short_code, long_url) VALUES (?, ?)]: the UNIQUE
    constraint rejects a short code that is already there. *)
Definition exec_insert (w : World) (s : State) (code long_url : string)
  : State * (dberror + unit) :=
  if dbfail w (tick s) then (next_tick s, inl ErrOther)
  else match urls s !! code with
       | Some _ => (next_tick s, inl ErrOther)
       | None => (set_urls (<[code := long_url]> (urls s)) (next_tick s), inr tt)
       end.

(** [row.Scan(&exists)]: an error leaves the destination as it was. *)
Definition scan_into (dest : nat) (r : dberror + nat) : nat :=
  match r with inr n => n | inl _ => dest end.

(** *** Requests and responses *)
Record ShortenRequest := { LongURL : string }.

Record ShortenResponse := {
  ShortCode : string;
  ShortURL : string;
  RespLongURL : string
}.

(** The body of [POST /api/shorten] as gin sees it: not JSON at all (with
    the decoder's message), or an object with or without [long_url]. *)
Inductive body :=
| Malformed (msg : string)
| Object (long_url : option string).

Definition required_msg : string :=
  "Key: 'ShortenRequest.LongURL' Error:Field validation for 'LongURL' failed on the 'required' tag".

(** [c.ShouldBindJSON(&req)] with [binding:"required"]: an absent field and
    the empty string both fail validation. *)
Definition ShouldBindJSON (b : body) : string + ShortenRequest :=
  match b with
  | Malformed msg => inl msg
  | Object None => inl required_msg
  | Object (Some u) =>
      if String.eqb u "" then inl required_msg else inr {| LongURL := u |}
  end.

Definition StatusOK := 200.
Definition StatusMovedPermanently := 301.
Definition StatusBadRequest := 400.
Definition StatusNotFound := 404.
Definition StatusInternalServerError := 500.

(** A response is what a handler wrote: a JSON error, the JSON of a
    creation, or a redirect with its [Location] header. [NoRoute] stands
    for a request that reached no handler: the router answered by itself
    and no code of the service ran. *)
Inductive response :=
| JSONError (status : nat) (error : string)
| JSONShorten (status : nat) (r : ShortenResponse)
| Redirect (status : nat) (location : string)
| NoRoute.

(** *** generateShortCode *)
Definition generateShortCode (w : World) (s : State) : State * string :=
  let b := rand_Read (rnd w) (rpos s) 6 in
  let encoded := EncodeToString b in
  (advance_rand 6 s, String.substring 0 6 encoded).

(** *** createShortURL

    The [for exists > 0] loop has no bound in the source; [fuel] counts the
    iterations the model is allowed, and [None] means they were used up
    with the loop still running. *)
Fixpoint regenerate (fuel : nat) (w : World) (s : State)
    (shortCode : string) (exists_ : nat) : option (State * string) :=
  if Nat.ltb 0 exists_ then
    match fuel with
    | 0 => None
    | S fuel' =>
        let '(s1, shortCode') := generateShortCode w s in
        let '(s2, r) := query_count w s1 shortCode' in
        regenerate fuel' w s2 shortCode' (scan_into exists_ r)
    end
  else Some (s, shortCode).

Definition createShortURL (fuel : nat) (w : World) (s : State) (b : body)
  : option (State * response) :=
  match ShouldBindJSON b with
  | inl msg => Some (s, JSONError StatusBadRequest msg)
  | inr req =>
      let '(s1, shortCode) := generateShortCode w s in
      let '(s2, r) := query_count w s1 shortCode in
      match r with
      | inl _ => Some (s2, JSONError StatusInternalServerError "Database error")
      | inr exists_ =>
          match regenerate fuel w s2 shortCode exists_ with
          | None => None
          | Some (s3, shortCode) =>
              let '(s4, r') := exec_insert w s3 shortCode (LongURL req) in
              match r' with
              | inl _ =>
                  Some (s4, JSONError StatusInternalServerError
                              "Failed to create short URL")
              | inr _ =>
                  let resp := {| ShortCode := shortCode;
                                 ShortURL := "http://localhost:8000/" ++ shortCode;
                                 RespLongURL := LongURL req |} in
                  Some (add_log (LogCreated shortCode (LongURL req)) s4,
                        JSONShorten StatusOK resp)
              end
          end
      end
  end.

(** *** redirect and sendClickEvent *)

(** What [client.Post] comes back with: an error (timeout after two
    seconds, connection failure) or a response with its status code. *)
Inductive post_result :=
| PostTimeout
| PostConnFailed
| PostStatus (code : nat).

(** [sendClickEvent]: one POST, then one log line whatever came back.
    ([json.Marshal] of two strings has no error to return, so the branch
    that would log it never runs.) *)
Definition sendClickEvent (now : string) (net : post_result)
    (shortCode : string) (s : State) : State :=
  let event := {| ev_short_code := shortCode; ev_clicked_at := now |} in
  let s1 := add_post event s in
  match net with
  | PostTimeout | PostConnFailed => add_log LogSendError s1
  | PostStatus st =>
      if Nat.eqb st StatusOK then add_log (LogSent shortCode) s1
      else add_log (LogStatus st) s1
  end.

(** [c.Redirect(http.StatusMovedPermanently, longURL)] on a request for
    [/code]: the status, and the [Location] that [http.Redirect] sets. *)
Definition c_Redirect (w : World) (shortCode : string) (status : nat)
    (location : string) : response :=
  Redirect status (Location (url_Parse w location) ("/" ++ shortCode) location).

(** [redirect] returns the response it wrote and the goroutine it started,
    if any: the argument of [go sendClickEvent(shortCode)]. *)
Definition redirect (w : World) (s : State) (shortCode : string)
  : State * response * option string :=
  let '(s1, r) := query_long_url w s shortCode in
  match r with
  | inl ErrNoRows =>
      (s1, JSONError StatusNotFound "Short URL not found", None)
  | inl ErrOther =>
      (s1, JSONError StatusInternalServerError "Database error", None)
  | inr longURL =>
      (s1, c_Redirect w shortCode StatusMovedPermanently longURL,
       Some shortCode)
  end.

(** One [GET /:code] from request to quiescence: the handler, then the
    goroutine it left behind, which reads the clock at [now] and meets the
    network outcome [net]. This is the schedule in which the goroutine is
    done before the next request is taken; [step] below leaves the
    goroutine pending and lets it run at any later point. *)
Definition serve_GET (w : World) (s : State) (shortCode : string)
    (now : string) (net : post_result) : State * response :=
  let '(s1, resp, spawned) := redirect w s shortCode in
  match spawned with
  | Some c => (sendClickEvent now net c s1, resp)
  | None => (s1, resp)
  end.

(** *** The service as a sequential machine

    [GET_code c] is a [GET] of the path [/c]. The router hands it to
    [redirect], with [c] as the [code] parameter, when [c] is one non-empty
    path segment; any other path has no handler. *)
Inductive request :=
| POST_shorten (b : body)
| GET_code (shortCode : string) (now : string) (net : post_result).

Definition is_param (c : string) : bool :=
  negb (String.eqb c "") && negb (contains_slash c).

Definition serve (fuel : nat) (w : World) (s : State) (r : request)
  : option (State * response) :=
  match r with
  | POST_shorten b => createShortURL fuel w s b
  | GET_code c now net =>
      if is_param c then Some (serve_GET w s c now net) else Some (s, NoRoute)
  end.

Fixpoint run (fuel : nat) (w : World) (s : State) (rs : list request)
  : option (State * list response) :=
  match rs with
  | [] => Some (s, [])
  | r :: rs' =>
      match serve fuel w s r with
      | None => None
      | Some (s1, resp) =>
          match run fuel w s1 rs' with
          | None => None
          | Some (s2, resps) => Some (s2, resp :: resps)
          end
      end
  end.

(** A short code is well formed when it has six characters, all from the
    URL-safe alphabet. *)
Definition well_formed (code : string) : Prop :=
  String.length code = 6 /\ all_chars is_urlsafe code = true.

(** *** Vocabulary for the allocation loop

    [draw w pos i] is the code the [i]-th call of [generateShortCode] yields
    when the random source stands at [pos]; [after_draws k s] is the state
    once [k] codes were drawn and checked; a draw is [accepted] when its
    existence check is answered and counts no row. *)
Definition draw (w : World) (pos i : nat) : string :=
  String.substring 0 6 (EncodeToString (rand_Read (rnd w) (pos + 6 * i) 6)).

Definition after_draws (k : nat) (s : State) : State :=
  {| urls := urls s; rpos := rpos s + 6 * k; tick := tick s + k;
     logs := logs s; posts := posts s |}.

Definition fresh (w : World) (s : State) (i : nat) : bool :=
  Nat.eqb (count_rows (urls s) (draw w (rpos s) i)) 0.

Definition accepted (w : World) (s : State) (i : nat) : bool :=
  negb (dbfail w (tick s + i)) && fresh w s i.

(** *** Sample environments

    A random source that yields six zero bytes and then only [0xff], so the
    first code drawn is [AAAAAA] and every later one is [______]; a
    database that always answers ([calm]) and one that answers the first
    statement and then fails for good ([flaky]); a store holding one link. *)
Definition zeros_then_ones (n : nat) : Byte.byte :=
  if Nat.ltb n 6 then Byte.x00 else Byte.xff.

(** What [url.Parse] makes of a plain URL, one with no query, fragment,
    user name or escape and with a plain host name: [getScheme] is
    transcribed from net/url; a host is what follows [//] up to the next
    slash. *)
Inductive scheme_scan :=
| NoScheme
| MissingScheme
| SchemeRest (scheme rest : string).

Definition is_alpha (c : ascii) : bool :=
  let n := N_of_ascii c in
  ((97 <=? n) && (n <=? 122) || (65 <=? n) && (n <=? 90))%N.

Definition is_scheme_mark (c : ascii) : bool :=
  let n := N_of_ascii c in
  ((48 <=? n) && (n <=? 57) || (n =? 43) || (n =? 45) || (n =? 46))%N.

Fixpoint getScheme (first : bool) (rawURL : string) : scheme_scan :=
  match rawURL with
  | EmptyString => NoScheme
  | String c r =>
      if is_alpha c || (is_scheme_mark c && negb first) then
        match getScheme false r with
        | SchemeRest scheme rest => SchemeRest (String c scheme) rest
        | other => other
        end
      else if is_scheme_mark c then NoScheme
      else if Ascii.eqb c ":"%char then
        if first then MissingScheme else SchemeRest EmptyString r
      else NoScheme
  end.

Fixpoint until_slash (s : string) : string :=
  match s with
  | EmptyString => EmptyString
  | String c r => if is_slash c then EmptyString else String c (until_slash r)
  end.

Fixpoint contains_colon (s : string) : bool :=
  match s with
  | EmptyString => false
  | String c r => Ascii.eqb c ":"%char || contains_colon r
  end.

(** [stringContainsCTLByte] *)
Fixpoint contains_CTL (s : string) : bool :=
  match s with
  | EmptyString => false
  | String c r =>
      let n := N_of_ascii c in
      ((n <? 32) || (n =? 127))%N || contains_CTL r
  end.

Definition plain_Parse (rawURL : string) : option ParsedURL :=
  let after scheme rest :=
    match rest with
    | String a (String b host) =>
        if is_slash a && is_slash b
        then Some {| Scheme := scheme; Host := until_slash host |}
        else if String.eqb scheme "" && negb (is_slash a)
                && contains_colon (until_slash rest)
        then None
        else Some {| Scheme := scheme; Host := EmptyString |}
    | _ => Some {| Scheme := scheme; Host := EmptyString |}
    end in
  if contains_CTL rawURL then None
  else match getScheme true rawURL with
       | MissingScheme => None
       | NoScheme => after EmptyString rawURL
       | SchemeRest scheme rest => after scheme rest
       end.

Definition calm : World :=
  {| rnd := zeros_then_ones; dbfail := fun _ => false;
     url_Parse := plain_Parse |}.

Definition flaky : World :=
  {| rnd := zeros_then_ones; dbfail := fun n => Nat.leb 1 n;
     url_Parse := plain_Parse |}.

Definition down : World :=
  {| rnd := zeros_then_ones; dbfail := fun _ => true;
     url_Parse := plain_Parse |}.

Definition one_link : State :=
  {| urls := {[ "AAAAAA" := "https://example.org/" ]};
     rpos := 0; tick := 0; logs := []; posts := [] |}.

Definition two_links : State :=
  {| urls := <[ "______" := "https://example.com" ]>
               {[ "AAAAAA" := "https://example.org/" ]};
     rpos := 12; tick := 3;
     logs := [LogCreated "______" "https://example.com"]; posts := [] |}.

Definition example_body : body := Object (Some "https://example.com").

Definition created_response : ShortenResponse :=
  {| ShortCode := "______";
     ShortURL := "http://localhost:8000/______";
     RespLongURL := "https://example.com" |}.

Definition two_lookups : list request :=
  [GET_code "______" "2024-01-01T00:00:00Z" PostConnFailed;
   GET_code "nosuch" "2024-01-01T00:00:01Z" (PostStatus 200)].

Definition after_lookups : State :=
  {| urls := urls two_links; rpos := 12; tick := 5;
     logs := [LogCreated "______" "https://example.com"; LogSendError];
     posts := [{| ev_short_code := "______";
                  ev_clicked_at := "2024-01-01T00:00:00Z" |}] |}.

(** *** Reading a session

    The codes handed out by the creations of a session. *)
Fixpoint created_codes (resps : list response) : list string :=
  match resps with
  | [] => []
  | JSONShorten _ r :: rest => ShortCode r :: created_codes rest
  | _ :: rest => created_codes rest
  end.

(** A store that answers its first statement, fails the second and
    answers from then on; an empty service; a session of two creations
    and two lookups on it, with its replies and the state it ends in. *)
Definition hiccup : World :=
  {| rnd := zeros_then_ones; dbfail := fun n => Nat.eqb n 1;
     url_Parse := plain_Parse |}.

Definition fresh_start : State :=
  {| urls := ∅; rpos := 0; tick := 0; logs := []; posts := [] |}.

Definition after_hiccup : State :=
  {| urls := ∅; rpos := 6; tick := 2; logs := []; posts := [] |}.

Definition sample_session : list request :=
  [POST_shorten (Object (Some "https://example.org/"));
   GET_code "AAAAAA" "2024-01-01T00:00:00Z" (PostStatus 200);
   POST_shorten example_body;
   GET_code "nosuch" "2024-01-01T00:00:01Z" PostTimeout].

Definition sample_replies : list response :=
  [JSONShorten 200 {| ShortCode := "AAAAAA";
                      ShortURL := "http://localhost:8000/AAAAAA";
                      RespLongURL := "https://example.org/" |};
   Redirect 301 "https://example.org/";
   JSONShorten 200 created_response;
   JSONError 404 "Short URL not found"].

Definition after_session : State :=
  {| urls := urls two_links; rpos := 12; tick := 6;
     logs := [LogCreated "AAAAAA" "https://example.org/";
              LogSent "AAAAAA";
              LogCreated "______" "https://example.com"];
     posts := [{| ev_short_code := "AAAAAA";
                  ev_clicked_at := "2024-01-01T00:00:00Z" |}] |}.

(** A creation request for a URL without scheme, and the service after it;
    a stored URL with two bytes outside ASCII. *)
Definition bare_body : body := Object (Some "example.com").

Definition bare_link : State :=
  {| urls := {[ "AAAAAA" := "example.com" ]}; rpos := 6; tick := 2;
     logs := [LogCreated "AAAAAA" "example.com"]; posts := [] |}.

Definition accented_url : string :=
  "https://example.com/caf" ++ String "195"%char (String "169"%char EmptyString).

Definition accented_link : State :=
  {| urls := {[ "AAAAAA" := accented_url ]}; rpos := 6; tick := 2;
     logs := [LogCreated "AAAAAA" accented_url]; posts := [] |}.

(** The long URLs a session submits: the [long_url] of each creation
    request whose body carries one. *)
Fixpoint submitted (rs : list request) : list string :=
  match rs with
  | [] => []
  | POST_shorten (Object (Some u)) :: rs' => u :: submitted rs'
  | _ :: rs' => submitted rs'
  end.

(** *** The service with its goroutines

    [redirect] starts [sendClickEvent] in a goroutine and returns; the
    goroutine runs at some later time, before, between or after the
    requests that follow, and reads the clock when it runs. A [System] is
    the service together with the goroutines started and not yet run, each
    with the code it was given. An action is a request handled by the
    service, or one pending goroutine running to its end. *)
Record System := { service : State; pending : list string }.

Inductive action :=
| Post (b : body)
| Get (shortCode : string)
| Goroutine (i : nat) (now : string) (net : post_result).

Definition spawn (spawned : option string) (pend : list string) : list string :=
  match spawned with
  | Some c => pend ++ [c]
  | None => pend
  end.

Definition step (fuel : nat) (w : World) (sys : System) (a : action)
  : option (System * option response) :=
  match a with
  | Post b =>
      match createShortURL fuel w (service sys) b with
      | None => None
      | Some (s', resp) =>
          Some ({| service := s'; pending := pending sys |}, Some resp)
      end
  | Get c =>
      if is_param c then
        let '(s', resp, spawned) := redirect w (service sys) c in
        Some ({| service := s'; pending := spawn spawned (pending sys) |},
              Some resp)
      else Some (sys, Some NoRoute)
  | Goroutine i now net =>
      match pending sys !! i with
      | Some c =>
          Some ({| service := sendClickEvent now net c (service sys);
                   pending := delete i (pending sys) |}, None)
      | None => Some (sys, None)
      end
  end.

Fixpoint exec (fuel : nat) (w : World) (sys : System) (acts : list action)
  : option (System * list (option response)) :=
  match acts with
  | [] => Some (sys, [])
  | a :: acts' =>
      match step fuel w sys a with
      | None => None
      | Some (sys1, out) =>
          match exec fuel w sys1 acts' with
          | None => None
          | Some (sys2, outs) => Some (sys2, out :: outs)
          end
      end
  end.

(** The codes of the lookups that were answered with a redirect. *)
Fixpoint redirected (acts : list action) (outs : list (option response))
  : list string :=
  match acts, outs with
  | Get c :: acts', Some (Redirect _ _) :: outs' => c :: redirected acts' outs'
  | _ :: acts', _ :: outs' => redirected acts' outs'
  | _, _ => []
  end.

(** A schedule in which the goroutine of the second lookup runs before
    that of the first, and what it leaves. *)
Definition idle : System := {| service := fresh_start; pending := [] |}.

Definition sample_schedule : list action :=
  [Post (Object (Some "https://example.org/"));
   Get "AAAAAA"; Get "AAAAAA";
   Goroutine 1 "2024-01-01T00:00:05Z" PostTimeout;
   Get "nosuch";
   Goroutine 0 "2024-01-01T00:00:06Z" (PostStatus 200)].

Definition sample_outputs : list (option response) :=
  [Some (JSONShorten 200 {| ShortCode := "AAAAAA";
                            ShortURL := "http://localhost:8000/AAAAAA";
                            RespLongURL := "https://example.org/" |});
   Some (Redirect 301 "https://example.org/");
   Some (Redirect 301 "https://example.org/");
   None;
   Some (JSONError 404 "Short URL not found");
   None].

Definition after_schedule : System :=
  {| service :=
       {| urls := {[ "AAAAAA" := "https://example.org/" ]};
          rpos := 6; tick := 5;
          logs := [LogCreated "AAAAAA" "https://example.org/";
                   LogSendError; LogSent "AAAAAA"];
          posts := [{| ev_short_code := "AAAAAA";
                       ev_clicked_at := "2024-01-01T00:00:05Z" |};
                    {| ev_short_code := "AAAAAA";
                       ev_clicked_at := "2024-01-01T00:00:06Z" |}] |};
     pending := [] |}.

(** *** Finite checks

    A property of bytes, or of six-bit values, that holds of each of
    them. *)
Definition for_all_bytes (p : Byte.byte -> bool) : bool :=
  forallb (fun n => match Byte.of_N (N.of_nat n) with
                    | Some b => p b
                    | None => true
                    end) (seq 0 256).

Definition for_all_sextets (p : N -> bool) : bool :=
  forallb (fun n => p (N.of_nat n)) (seq 0 64).

End Go.

(** ** The metadata service (Node.js) *)
Module Node.

Local Open Scope list_scope.

(** *** JavaScript strings

    A string is its sequence of UTF-16 code units; [undefined] and [null]
    are [None] where a variable may hold them. *)
Abbreviation jsstring := (list N).

Definition js (s : string) : jsstring :=
  map N_of_ascii (list_ascii_of_string s).

(** [!v] is false exactly for a non-empty string. *)
Definition truthy (v : option jsstring) : bool :=
  match v with
  | Some (_ :: _) => true
  | _ => false
  end.

(** WhiteSpace and LineTerminator of ECMAScript, which [trim] strips. *)
Definition is_white_space (c : N) : bool :=
  ((9 <=? c) && (c <=? 13) || (c =? 32) || (c =? 160) || (c =? 5760)
   || (8192 <=? c) && (c <=? 8202) || (c =? 8232) || (c =? 8233)
   || (c =? 8239) || (c =? 8287) || (c =? 12288) || (c =? 65279))%N.

Fixpoint trimStart (s : jsstring) : jsstring :=
  match s with
  | c :: r => if is_white_space c then trimStart r else s
  | [] => []
  end.

Definition trimEnd (s : jsstring) : jsstring := rev (trimStart (rev s)).

Definition trim (s : jsstring) : jsstring := trimEnd (trimStart s).

(** [s.substring(a, b)]: both indices are clamped to the length and
    swapped when out of order. *)
Definition substring (a b : nat) (s : jsstring) : jsstring :=
  let a' := Nat.min a (length s) in
  let b' := Nat.min b (length s) in
  firstn (Nat.max a' b' - Nat.min a' b') (skipn (Nat.min a' b') s).

(** [s.startsWith(p)] *)
Fixpoint startsWith (s p : jsstring) : bool :=
  match p, s with
  | [], _ => true
  | a :: p', b :: s' => N.eqb a b && startsWith s' p'
  | _ :: _, [] => false
  end.

(** *** cheerio

    What the service asks of a loaded document: the elements a selector
    matches, in document order, each with its attributes and its text. A
    selector [tag[a1="v1"][a2="v2"]] is its tag and its attribute tests. *)
Record Element := {
  attribs : list (jsstring * jsstring);
  text_content : jsstring
}.

Record selector := { sel_tag : string; sel_attrs : list (string * string) }.

Definition Cheerio := selector -> list Element.

(** [.text()]: the text of every matched element, concatenated. *)
Definition text (matched : list Element) : jsstring :=
  concat (map text_content matched).

Fixpoint lookup_attr (name : jsstring) (l : list (jsstring * jsstring))
  : option jsstring :=
  match l with
  | [] => None
  | (k, v) :: r => if decide (k = name) then Some v else lookup_attr name r
  end.

(** [.attr(name)]: the attribute of the first matched element. *)
Definition attr (matched : list Element) (name : jsstring) : option jsstring :=
  match matched with
  | [] => None
  | e :: _ => lookup_attr name (attribs e)
  end.

(** *** What the service runs on

    [axios.get], [cheerio.load] and the [URL] constructor; [None] stands
    for a thrown exception. *)
Record URL := { protocol : jsstring; hostname : jsstring }.

Record Platform := {
  Data : Type;
  axios_get : jsstring -> option Data;
  cheerio_load : Data -> option Cheerio;
  newURL : jsstring -> option URL
}.

(** *** fetchUrlMetadata *)
Record Metadata := {
  title : jsstring;
  description : jsstring;
  favicon_url : option jsstring
}.

Definition sel_title : selector := {| sel_tag := "title"; sel_attrs := [] |}.
Definition sel_og_title : selector :=
  {| sel_tag := "meta"; sel_attrs := [("property", "og:title")] |}.
Definition sel_description : selector :=
  {| sel_tag := "meta"; sel_attrs := [("name", "description")] |}.
Definition sel_og_description : selector :=
  {| sel_tag := "meta"; sel_attrs := [("property", "og:description")] |}.

Definition faviconSelectors : list selector :=
  [ {| sel_tag := "link"; sel_attrs := [("rel", "icon")] |};
    {| sel_tag := "link"; sel_attrs := [("rel", "shortcut icon")] |};
    {| sel_tag := "link"; sel_attrs := [("rel", "apple-touch-icon")] |};
    {| sel_tag := "link"; sel_attrs := [("rel", "icon"); ("type", "image/png")] |};
    {| sel_tag := "link"; sel_attrs := [("rel", "icon"); ("type", "image/x-icon")] |} ].

(** [if (!v) v = alt] *)
Definition if_falsy (v alt : option jsstring) : option jsstring :=
  if truthy v then v else alt.

(** [for (const selector of faviconSelectors) { faviconUrl = ...; if
    (faviconUrl) break; }], with the value [faviconUrl] holds so far. *)
Fixpoint favicon_loop (q : Cheerio) (sels : list selector)
    (faviconUrl : option jsstring) : option jsstring :=
  match sels with
  | [] => faviconUrl
  | sel :: rest =>
      let faviconUrl := attr (q sel) (js "href") in
      if truthy faviconUrl then faviconUrl else favicon_loop q rest faviconUrl
  end.

Definition resolve_favicon (P : Platform) (url : jsstring)
    (faviconUrl : option jsstring) : option jsstring :=
  match faviconUrl with
  | Some (c :: r) =>
      let f := c :: r in
      if startsWith f (js "/") then
        urlObj ← newURL P url;
        Some (protocol urlObj ++ js "//" ++ hostname urlObj ++ f)
      else if negb (startsWith f (js "http")) then
        urlObj ← newURL P url;
        Some (protocol urlObj ++ js "//" ++ hostname urlObj ++ js "/" ++ f)
      else Some f
  | _ =>
      urlObj ← newURL P url;
      Some (protocol urlObj ++ js "//" ++ hostname urlObj ++ js "/favicon.ico")
  end.

(** Whether [resolve_favicon] reaches a [new URL(url)]: it does unless
    the [href] found starts with [http] (and not with [/]). *)
Definition calls_URL (faviconUrl : option jsstring) : bool :=
  match faviconUrl with
  | Some (c :: r) =>
      startsWith (c :: r) (js "/") || negb (startsWith (c :: r) (js "http"))
  | _ => true
  end.

(** The [try] block: [None] when anything in it throws. *)
Definition try_fetch (P : Platform) (url : jsstring) : option Metadata :=
  data ← axios_get P url;
  q ← cheerio_load P data;
  let title := Some (trim (text (q sel_title))) in
  let title := if_falsy title (attr (q sel_og_title) (js "content")) in
  let title := if_falsy title (Some (js "No title found")) in
  let description := attr (q sel_description) (js "content") in
  let description :=
    if_falsy description (attr (q sel_og_description) (js "content")) in
  let description := if_falsy description (Some (js "No description available")) in
  let faviconUrl := favicon_loop q faviconSelectors None in
  faviconUrl ← resolve_favicon P url faviconUrl;
  title ← title;
  description ← description;
  Some {| title := substring 0 200 title;
          description := substring 0 500 description;
          favicon_url := Some faviconUrl |}.

Definition unable_to_fetch : Metadata :=
  {| title := js "Unable to fetch title";
     description := js "Could not retrieve page information";
     favicon_url := None |}.

Definition fetchUrlMetadata (P : Platform) (url : jsstring) : Metadata :=
  match try_fetch P url with
  | Some m => m
  | None => unable_to_fetch
  end.

(** *** POST /api/metadata

    The [metadata] table is keyed by its [UNIQUE] [short_code]; [id] and
    [fetched_at] are filled in by SQLite and are not part of a [Row],
    which holds what the handler writes. Text is taken as the handler
    passes it: SQLite keeps it as UTF-8, which is the same thing for every
    well-formed string. *)
Record Row := {
  row_url : jsstring;
  row_title : jsstring;
  row_description : jsstring;
  row_favicon_url : option jsstring
}.

(** The two fields of the request body as the handler reads them, for a
    request in which each of them is a JSON string or absent ([None]); a
    body with another JSON value there is outside this model. *)
Record Body := { short_code : option jsstring; long_url : option jsstring }.

Record Payload := {
  p_short_code : jsstring;
  p_url : jsstring;
  p_title : jsstring;
  p_description : jsstring;
  p_favicon_url : option jsstring;
  p_status : string
}.

Inductive response :=
| Error (status : nat) (error : string)
| Json (status : nat) (payload : Payload).

(** [INSERT OR REPLACE INTO metadata ...]: [None] when the statement
    fails. *)
Definition insert_or_replace (fails : bool) (tbl : gmap jsstring Row)
    (code : jsstring) (r : Row) : option (gmap jsstring Row) :=
  if fails then None else Some (<[code := r]> tbl).

Definition post_metadata (P : Platform) (dbfails : bool)
    (tbl : gmap jsstring Row) (b : Body) : gmap jsstring Row * response :=
  match short_code b, long_url b with
  | Some (c :: cs), Some (u :: us) =>
      let code := c :: cs in
      let url := u :: us in
      let metadata := fetchUrlMetadata P url in
      let row := {| row_url := url; row_title := title metadata;
                    row_description := description metadata;
                    row_favicon_url := favicon_url metadata |} in
      match insert_or_replace dbfails tbl code row with
      | None => (tbl, Error 500 "Failed to store metadata")
      | Some tbl' =>
          (tbl', Json 200 {| p_short_code := code; p_url := url;
                             p_title := title metadata;
                             p_description := description metadata;
                             p_favicon_url := favicon_url metadata;
                             p_status := "success" |})
      end
  | _, _ => (tbl, Error 400 "short_code and long_url are required")
  end.

(** *** The chain in the words of its description

    The first selector of the list, in order, whose first match carries a
    non-empty [href], and that [href]. *)
Fixpoint first_href (q : Cheerio) (sels : list selector) : option jsstring :=
  match sels with
  | [] => None
  | sel :: rest =>
      match attr (q sel) (js "href") with
      | Some (c :: r) => Some (c :: r)
      | _ => first_href q rest
      end
  end.

(** *** Relative references, in the words of the description

    A reference is relative when it does not begin with a scheme: a
    letter, then letters, digits, [+], [-] or [.], then a colon. *)
Definition is_letter (c : N) : bool :=
  ((97 <=? c) && (c <=? 122) || (65 <=? c) && (c <=? 90))%N.

Fixpoint scheme_tail (s : jsstring) : bool :=
  match s with
  | [] => false
  | c :: r =>
      if (c =? 58)%N then true
      else if is_letter c || (48 <=? c)%N && (c <=? 57)%N
              || (c =? 43)%N || (c =? 45)%N || (c =? 46)%N
      then scheme_tail r
      else false
  end.

Definition has_scheme (s : jsstring) : bool :=
  match s with
  | c :: r => is_letter c && scheme_tail r
  | [] => false
  end.

Definition is_relative (s : jsstring) : bool := negb (has_scheme s).

(** *** Sample documents and platforms

    A document as the list of its elements in document order, queried by
    comparing tag and attribute values exactly; a reader of URLs of the
    plain form [scheme://host...]; a site that serves one document and a
    site that cannot be reached. *)
Record DomNode := { tag : string; element : Element }.

Definition matches (sel : selector) (n : DomNode) : bool :=
  String.eqb (tag n) (sel_tag sel)
  && forallb (fun '(a, v) =>
                match lookup_attr (js a) (attribs (element n)) with
                | Some v' => bool_decide (v' = js v)
                | None => false
                end) (sel_attrs sel).

Definition load (dom : list DomNode) : Cheerio :=
  fun sel => map element (filter (fun n => matches sel n = true) dom).

Fixpoint until_delim (s : jsstring) : jsstring :=
  match s with
  | [] => []
  | c :: r =>
      if ((c =? 47) || (c =? 58) || (c =? 63) || (c =? 35))%N then []
      else c :: until_delim r
  end.

Fixpoint plain_URL (scheme s : jsstring) : option URL :=
  match s with
  | [] => None
  | c :: r =>
      if startsWith s (js "://") then
        Some {| protocol := rev scheme ++ js ":";
                hostname := until_delim (skipn 3 s) |}
      else plain_URL (c :: scheme) r
  end.

Definition static_site (dom : list DomNode) : Platform :=
  {| Data := list DomNode;
     axios_get := fun _ => Some dom;
     cheerio_load := fun d => Some (load d);
     newURL := plain_URL [] |}.

Definition unreachable_site : Platform :=
  {| Data := list DomNode;
     axios_get := fun _ => None;
     cheerio_load := fun d => Some (load d);
     newURL := plain_URL [] |}.

Definition meta_og_title (content : jsstring) : DomNode :=
  {| tag := "meta";
     element := {| attribs := [(js "property", js "og:title");
                               (js "content", content)];
                   text_content := [] |} |}.

Definition title_node (t : jsstring) : DomNode :=
  {| tag := "title"; element := {| attribs := []; text_content := t |} |}.

Definition link_icon (href : jsstring) : DomNode :=
  {| tag := "link";
     element := {| attribs := [(js "rel", js "icon"); (js "href", href)];
                   text_content := [] |} |}.

Definition page_url : jsstring := js "https://example.com/page".

Definition port_url : jsstring := js "https://example.com:8443/page".

Definition schemeless_url : jsstring := js "example.com/page".

Definition data_icon : jsstring := js "data:image/png;base64,AAAA".

Definition long_title : jsstring := repeat 97%N 201.

(** A [meta name=description] tag and a page with a title and a
    description. *)
Definition meta_description (content : jsstring) : DomNode :=
  {| tag := "meta";
     element := {| attribs := [(js "name", js "description");
                               (js "content", content)];
                   text_content := [] |} |}.

Definition sample_page : list DomNode :=
  [title_node (js "  Hello  "); meta_description (js " A page ")].

End Node.

(** ** Properties of the redirect service *)
Module GoProps.
Import Go.

(** *** Short codes: shape *)

Arguments enc : simpl never.
Arguments quantum : simpl never.

Lemma land_63_lt (i : N) : (N.land i 63 < 64)%N.
Proof.
  change 63%N with (N.ones 6). rewrite N.land_ones.
  apply N.mod_lt. discriminate.
Qed.

Lemma encodeURL_urlsafe (k : nat) :
  k < 64 ->
  match String.get k encodeURL with
  | Some c => is_urlsafe c = true
  | None => False
  end.
Proof.
  intros Hk.
  do 64 (destruct k as [|k]; [vm_compute; reflexivity|]).
  lia.
Qed.

Lemma enc_urlsafe (i : N) : is_urlsafe (enc i) = true.
Proof.
  unfold enc.
  pose proof (land_63_lt i) as Hlt.
  pose proof (encodeURL_urlsafe (N.to_nat (N.land i 63))) as H.
  destruct (String.get (N.to_nat (N.land i 63)) encodeURL).
  - apply H. lia.
  - exfalso. apply H. lia.
Qed.

(** Six bytes encode to eight characters, none of them padding, so the
    slice [encoded[:6]] is in range. *)
Lemma EncodeToString_6 (a b c d e f : Byte.byte) :
  EncodeToString [a; b; c; d; e; f] =
  String (enc (N.shiftr (quantum a b c) 18))
    (String (enc (N.shiftr (quantum a b c) 12))
       (String (enc (N.shiftr (quantum a b c) 6))
          (String (enc (quantum a b c))
             (String (enc (N.shiftr (quantum d e f) 18))
                (String (enc (N.shiftr (quantum d e f) 12))
                   (String (enc (N.shiftr (quantum d e f) 6))
                      (String (enc (quantum d e f)) EmptyString))))))).
Proof. reflexivity. Qed.

Lemma generateShortCode_well_formed (w : World) (s : State) :
  well_formed (snd (generateShortCode w s)).
Proof.
  unfold generateShortCode, rand_Read. cbn [snd seq map].
  rewrite EncodeToString_6. cbn [String.substring].
  split; [reflexivity|].
  cbn [all_chars]. rewrite !enc_urlsafe. reflexivity.
Qed.

Lemma generateShortCode_state (w : World) (s : State) :
  fst (generateShortCode w s) = advance_rand 6 s.
Proof. reflexivity. Qed.

Lemma regenerate_well_formed (fuel : nat) (w : World) :
  forall s code ex s' code',
    well_formed code ->
    regenerate fuel w s code ex = Some (s', code') ->
    well_formed code'.
Proof.
  induction fuel as [|fuel IH]; intros s code ex s' code' Hwf; cbn [regenerate].
  - destruct (Nat.ltb 0 ex); [discriminate|]. intros [= _ <-]. exact Hwf.
  - destruct (Nat.ltb 0 ex).
    + destruct (generateShortCode w s) as [s1 c1] eqn:Hg.
      destruct (query_count w s1 c1) as [s2 r].
      apply IH.
      change c1 with (snd (s1, c1)). rewrite <- Hg.
      apply generateShortCode_well_formed.
    + intros [= _ <-]. exact Hwf.
Qed.

(** C2. Whenever [POST /api/shorten] answers with a short code, that code
    has exactly six characters and each of them is a letter, a digit, [-]
    or [_], the URL-safe base64 alphabet. *)
Theorem created_code_well_formed (fuel : nat) (w : World) (s s' : State)
    (b : body) (status : nat) (r : ShortenResponse) :
  createShortURL fuel w s b = Some (s', JSONShorten status r) ->
  String.length (ShortCode r) = 6 /\ all_chars is_urlsafe (ShortCode r) = true.
Proof.
  unfold createShortURL.
  destruct (ShouldBindJSON b) as [msg|req]; [discriminate|].
  destruct (generateShortCode w s) as [s1 c1] eqn:Hg.
  destruct (query_count w s1 c1) as [s2 [e|ex]]; [discriminate|].
  destruct (regenerate fuel w s2 c1 ex) as [[s3 c3]|] eqn:Hr; [|discriminate].
  destruct (exec_insert w s3 c3 (LongURL req)) as [s4 [e|u]]; [discriminate|].
  intros [= _ _ <-]. cbn [ShortCode].
  apply (regenerate_well_formed fuel w s2 c1 ex s3 c3); [|exact Hr].
  change c1 with (snd (s1, c1)). rewrite <- Hg.
  apply generateShortCode_well_formed.
Qed.

Lemma created_code_well_formed_witness :
  createShortURL 3 calm one_link example_body
  = Some (two_links, JSONShorten 200 created_response)
  /\ String.length (ShortCode created_response) = 6
  /\ all_chars is_urlsafe (ShortCode created_response) = true.
Proof.
  split; [vm_compute; reflexivity|].
  apply (created_code_well_formed 3 calm one_link two_links example_body
           200 created_response).
  vm_compute. reflexivity.
Defined.

(** *** The allocation loop *)

Lemma one_iteration_state (s : State) (k : nat) :
  after_draws k (next_tick (advance_rand 6 s)) = after_draws (S k) s.
Proof.
  unfold after_draws, next_tick, advance_rand; cbn. f_equal; lia.
Qed.

Lemma after_draws_1 (s : State) :
  next_tick (advance_rand 6 s) = after_draws 1 s.
Proof.
  unfold after_draws, next_tick, advance_rand; cbn. f_equal; lia.
Qed.

Lemma draw_0 (w : World) (s : State) :
  snd (generateShortCode w s) = draw w (rpos s) 0.
Proof.
  unfold generateShortCode, draw; cbn [snd].
  replace (rpos s + 6 * 0) with (rpos s) by lia. reflexivity.
Qed.

Lemma draw_shift (w : World) (pos i : nat) :
  draw w (pos + 6) i = draw w pos (S i).
Proof.
  unfold draw. replace (pos + 6 + 6 * i) with (pos + 6 * S i) by lia.
  reflexivity.
Qed.

Lemma fresh_shift (w : World) (s : State) (i : nat) :
  fresh w (next_tick (advance_rand 6 s)) i = fresh w s (S i).
Proof.
  unfold fresh; cbn [urls rpos next_tick advance_rand].
  rewrite draw_shift. reflexivity.
Qed.

Lemma accepted_shift (w : World) (s : State) (i : nat) :
  accepted w (next_tick (advance_rand 6 s)) i = accepted w s (S i).
Proof.
  unfold accepted. rewrite fresh_shift.
  cbn [tick next_tick advance_rand].
  replace (S (tick s) + i) with (tick s + S i) by lia. reflexivity.
Qed.

Lemma fresh_lookup (w : World) (s : State) (i : nat) :
  fresh w s i = true <-> urls s !! draw w (rpos s) i = None.
Proof.
  unfold fresh, count_rows.
  destruct (urls s !! draw w (rpos s) i); cbn; split; congruence.
Qed.

(** One pass through the loop body, seen from the state the loop is in:
    what [exists] holds afterwards is positive exactly when draw 0 was
    not accepted. *)
Lemma scan_after_draw (w : World) (s : State) (ex : nat) :
  0 < ex ->
  Nat.ltb 0 (scan_into ex (snd (query_count w (advance_rand 6 s)
                                   (draw w (rpos s) 0))))
  = negb (accepted w s 0).
Proof.
  intros Hex. unfold query_count, accepted, fresh.
  cbn [snd tick urls advance_rand].
  replace (tick s + 0) with (tick s) by lia.
  destruct (dbfail w (tick s)); cbn [scan_into negb andb].
  - apply Nat.ltb_lt. exact Hex.
  - unfold count_rows. destruct (urls s !! draw w (rpos s) 0); reflexivity.
Qed.

Lemma regenerate_unfold (fuel : nat) (w : World) (s : State)
    (code : string) (ex : nat) :
  0 < ex ->
  regenerate (S fuel) w s code ex =
  regenerate fuel w (next_tick (advance_rand 6 s)) (draw w (rpos s) 0)
    (scan_into ex (snd (query_count w (advance_rand 6 s) (draw w (rpos s) 0)))).
Proof.
  intros Hex. cbn [regenerate].
  apply Nat.ltb_lt in Hex. rewrite Hex.
  rewrite (surjective_pairing (generateShortCode w s)).
  rewrite draw_0, generateShortCode_state.
  reflexivity.
Qed.

Lemma regenerate_exit (fuel : nat) (w : World) (s : State) (code : string) :
  regenerate fuel w s code 0 = Some (s, code).
Proof. destruct fuel; reflexivity. Qed.

(** The loop returns only with the first accepted draw. *)
Lemma regenerate_Some (fuel : nat) (w : World) :
  forall s code ex s' code',
    0 < ex ->
    regenerate fuel w s code ex = Some (s', code') ->
    exists k, k < fuel
      /\ (forall i, i < k -> accepted w s i = false)
      /\ accepted w s k = true
      /\ code' = draw w (rpos s) k
      /\ s' = after_draws (S k) s.
Proof.
  induction fuel as [|fuel IH]; intros s code ex s' code' Hex.
  - cbn [regenerate]. apply Nat.ltb_lt in Hex. rewrite Hex. discriminate.
  - rewrite regenerate_unfold by exact Hex.
    pose proof (scan_after_draw w s ex Hex) as Hscan.
    destruct (accepted w s 0) eqn:Hacc; cbn [negb] in Hscan.
    + apply Nat.ltb_ge in Hscan.
      assert (Hz : scan_into ex (snd (query_count w (advance_rand 6 s)
                                        (draw w (rpos s) 0))) = 0) by lia.
      rewrite Hz, regenerate_exit. intros [= <- <-].
      exists 0. repeat split; [lia | intros i Hi; lia | exact Hacc | ].
      apply after_draws_1.
    + apply Nat.ltb_lt in Hscan. intros Hr.
      destruct (IH _ _ _ _ _ Hscan Hr) as (k & Hk & Hrej & Hok & Hc & Hs).
      exists (S k). repeat split.
      * lia.
      * intros [|i] Hi; [exact Hacc|].
        rewrite <- accepted_shift. apply Hrej. lia.
      * rewrite <- accepted_shift. exact Hok.
      * rewrite Hc. cbn [rpos next_tick advance_rand]. apply draw_shift.
      * rewrite Hs. apply one_iteration_state.
Qed.

(** While every draw so far was rejected the loop is still running: it
    neither gives up nor fails. *)
Lemma regenerate_running (fuel : nat) (w : World) :
  forall s code ex,
    0 < ex ->
    (forall i, i < fuel -> accepted w s i = false) ->
    regenerate fuel w s code ex = None.
Proof.
  induction fuel as [|fuel IH]; intros s code ex Hex Hrej.
  - cbn [regenerate]. apply Nat.ltb_lt in Hex. rewrite Hex. reflexivity.
  - rewrite regenerate_unfold by exact Hex.
    pose proof (scan_after_draw w s ex Hex) as Hscan.
    rewrite (Hrej 0) in Hscan by lia. cbn [negb] in Hscan.
    apply Nat.ltb_lt in Hscan.
    apply IH; [exact Hscan|].
    intros i Hi. rewrite accepted_shift. apply Hrej. lia.
Qed.

(** An accepted draw anywhere ahead makes the loop return. *)
Lemma regenerate_returns (w : World) (k : nat) :
  forall s code ex,
    0 < ex ->
    accepted w s k = true ->
    exists s' code', regenerate (S k) w s code ex = Some (s', code').
Proof.
  induction k as [|k IH]; intros s code ex Hex Hk;
    rewrite regenerate_unfold by exact Hex;
    pose proof (scan_after_draw w s ex Hex) as Hscan.
  - rewrite Hk in Hscan. cbn [negb] in Hscan. apply Nat.ltb_ge in Hscan.
    assert (Hz : scan_into ex (snd (query_count w (advance_rand 6 s)
                                      (draw w (rpos s) 0))) = 0) by lia.
    rewrite Hz. cbn [regenerate Nat.ltb Nat.leb]. eauto.
  - destruct (accepted w s 0) eqn:Hacc; cbn [negb] in Hscan.
    + apply Nat.ltb_ge in Hscan.
      assert (Hz : scan_into ex (snd (query_count w (advance_rand 6 s)
                                        (draw w (rpos s) 0))) = 0) by lia.
      rewrite Hz, regenerate_exit. eauto.
    + apply Nat.ltb_lt in Hscan.
      apply IH; [exact Hscan|]. rewrite accepted_shift. exact Hk.
Qed.

Lemma regenerate_more_fuel (w : World) (fuel : nat) :
  forall s code ex s' code' extra,
    regenerate fuel w s code ex = Some (s', code') ->
    regenerate (fuel + extra) w s code ex = Some (s', code').
Proof.
  induction fuel as [|fuel IH]; intros s code ex s' code' extra.
  - cbn [regenerate]. destruct (Nat.ltb 0 ex) eqn:E; [discriminate|].
    intros H. apply Nat.ltb_ge in E.
    replace ex with 0 in * by lia. rewrite regenerate_exit. exact H.
  - cbn [regenerate Nat.add]. destruct (Nat.ltb 0 ex); [|tauto].
    destruct (generateShortCode w s) as [s1 c1].
    destruct (query_count w s1 c1) as [s2 r]. apply IH.
Qed.

Lemma exec_insert_cases (w : World) (s : State) (code long_url : string) :
  (snd (exec_insert w s code long_url) = inr tt
   /\ dbfail w (tick s) = false
   /\ urls s !! code = None
   /\ urls (fst (exec_insert w s code long_url)) = <[code := long_url]> (urls s))
  \/ ((exists e, snd (exec_insert w s code long_url) = inl e)
      /\ urls (fst (exec_insert w s code long_url)) = urls s).
Proof.
  unfold exec_insert.
  destruct (dbfail w (tick s)); [right; cbn; eauto|].
  destruct (urls s !! code) eqn:E; [right; cbn; eauto|].
  left. cbn. auto.
Qed.

(** The loop, exactly: with the first accepted draw at [k], it is still
    running after [k] passes and returns that draw at the next. *)
Lemma regenerate_first_accepted (w : World) (s : State) (code : string)
    (ex k fuel : nat) :
  0 < ex ->
  (forall i, i < k -> accepted w s i = false) ->
  accepted w s k = true ->
  regenerate fuel w s code ex
  = if Nat.leb fuel k then None
    else Some (after_draws (S k) s, draw w (rpos s) k).
Proof.
  intros Hex Hrej Hok.
  destruct (Nat.leb fuel k) eqn:Hf.
  - apply Nat.leb_le in Hf. apply regenerate_running; [exact Hex|].
    intros i Hi. apply Hrej. lia.
  - apply Nat.leb_gt in Hf.
    destruct (regenerate_returns w k s code ex Hex Hok) as (s' & c' & Hr).
    pose proof (regenerate_Some _ _ _ _ _ _ _ Hex Hr)
      as (k' & Hk' & Hrej' & Hok' & -> & ->).
    assert (k' = k) as ->.
    { destruct (Nat.lt_trichotomy k' k) as [Hlt|[Heq|Hgt]]; [|exact Heq|lia].
      rewrite (Hrej k' Hlt) in Hok'. discriminate. }
    replace fuel with (S k + (fuel - S k)) by lia.
    apply regenerate_more_fuel. exact Hr.
Qed.

(** A creation request whose first [k] draws are rejected and whose draw
    [k] is accepted: running while the fuel is below [k], and from there on
    the insert of draw [k]. *)
Lemma createShortURL_first_accepted (w : World) (s : State) (b : body)
    (req : ShortenRequest) (k fuel : nat) :
  ShouldBindJSON b = inr req ->
  dbfail w (tick s) = false ->
  (forall i, i < k -> accepted w s i = false) ->
  accepted w s k = true ->
  createShortURL fuel w s b
  = if Nat.ltb fuel k then None
    else if dbfail w (tick s + S k)
    then Some (next_tick (after_draws (S k) s),
               JSONError StatusInternalServerError "Failed to create short URL")
    else Some (add_log (LogCreated (draw w (rpos s) k) (LongURL req))
                 (set_urls (<[draw w (rpos s) k := LongURL req]> (urls s))
                    (next_tick (after_draws (S k) s))),
               JSONShorten StatusOK
                 {| ShortCode := draw w (rpos s) k;
                    ShortURL := "http://localhost:8000/" ++ draw w (rpos s) k;
                    RespLongURL := LongURL req |}).
Proof.
  intros Hb Hdb Hrej Hok.
  assert (Hnone : urls s !! draw w (rpos s) k = None).
  { unfold accepted in Hok. apply andb_true_iff in Hok.
    apply fresh_lookup. tauto. }
  assert (Hins : forall s3,
    urls s3 = urls s -> tick s3 = tick s + S k ->
    exec_insert w s3 (draw w (rpos s) k) (LongURL req)
    = if dbfail w (tick s + S k) then (next_tick s3, inl ErrOther)
      else (set_urls (<[draw w (rpos s) k := LongURL req]> (urls s))
              (next_tick s3), inr tt)).
  { intros s3 Hu Ht. unfold exec_insert. rewrite Ht, Hu, Hnone.
    destruct (dbfail w (tick s + S k)); reflexivity. }
  unfold createShortURL. rewrite Hb.
  rewrite (surjective_pairing (generateShortCode w s)).
  rewrite draw_0, generateShortCode_state.
  unfold query_count at 1. cbn [tick urls advance_rand]. rewrite Hdb.
  destruct k as [|k].
  - assert (Hc : count_rows (urls s) (draw w (rpos s) 0) = 0).
    { unfold count_rows. rewrite Hnone. reflexivity. }
    rewrite Hc, regenerate_exit. cbn [Nat.ltb Nat.leb].
    rewrite after_draws_1.
    rewrite (Hins (after_draws 1 s)) by (cbn; first [reflexivity | lia]).
    destruct (dbfail w (tick s + 1)); reflexivity.
  - assert (Hc : 0 < count_rows (urls s) (draw w (rpos s) 0)).
    { pose proof (Hrej 0 ltac:(lia)) as H0. unfold accepted, fresh in H0.
      replace (tick s + 0) with (tick s) in H0 by lia.
      rewrite Hdb in H0. cbn [negb andb] in H0.
      apply Nat.eqb_neq in H0. lia. }
    rewrite (regenerate_first_accepted w (next_tick (advance_rand 6 s))
               (draw w (rpos s) 0) _ k fuel Hc).
    + replace (Nat.ltb fuel (S k)) with (Nat.leb fuel k) by reflexivity.
      destruct (Nat.leb fuel k); [reflexivity|].
      rewrite one_iteration_state.
      cbn [rpos next_tick advance_rand]. rewrite draw_shift.
      rewrite (Hins (after_draws (S (S k)) s)) by (cbn; first [reflexivity | lia]).
      destruct (dbfail w (tick s + S (S k))); reflexivity.
    + intros i Hi. rewrite accepted_shift. apply Hrej. lia.
    + rewrite accepted_shift. exact Hok.
Qed.

Lemma accepted_answering (w : World) (s : State) (i : nat) :
  dbfail w (tick s + i) = false ->
  accepted w s i = negb (bool_decide (is_Some (urls s !! draw w (rpos s) i))).
Proof.
  intros Hdb. unfold accepted, fresh, count_rows. rewrite Hdb.
  destruct (urls s !! draw w (rpos s) i) as [u|].
  - rewrite bool_decide_eq_true_2 by eauto. reflexivity.
  - rewrite bool_decide_eq_false_2; [reflexivity|].
    intros [u Hu]. discriminate.
Qed.

(** C1. For a creation request that binds:
    - whatever the store and the random source do, the table changes, if at
      all, by the insert of one pair, whose code is the first draw that the
      existence check found absent, and which is absent from the table;
    - with the first such draw at position [k], the request is still in
      its loop after fewer than [k] redraws: every draw before was checked,
      found present (or its check unanswered) and drawn again; after [k]
      redraws the loop is left with draw [k], and only then the insert is
      made, of that code with the target of the request;
    - so, with a store that answers: when the first [k] draws all collide
      with rows of the table and draw [k] does not, the request redraws [k]
      times, inserts draw [k] and answers 200 with it. *)
Theorem insert_only_absent_code (w : World) (s : State) (b : body)
    (req : ShortenRequest) :
  ShouldBindJSON b = inr req ->
  (forall fuel s' resp,
      createShortURL fuel w s b = Some (s', resp) ->
      urls s' = urls s
      \/ exists k,
           (forall i, i < k -> accepted w s i = false)
           /\ accepted w s k = true
           /\ urls s !! draw w (rpos s) k = None
           /\ urls s' = <[draw w (rpos s) k := LongURL req]> (urls s)
           /\ resp = JSONShorten StatusOK
                       {| ShortCode := draw w (rpos s) k;
                          ShortURL := "http://localhost:8000/"
                                      ++ draw w (rpos s) k;
                          RespLongURL := LongURL req |})
  /\ (forall k,
        dbfail w (tick s) = false ->
        (forall i, i < k -> accepted w s i = false) ->
        accepted w s k = true ->
        urls s !! draw w (rpos s) k = None
        /\ (forall fuel, fuel < k -> createShortURL fuel w s b = None)
        /\ (forall fuel, k <= fuel ->
              createShortURL fuel w s b
              = if dbfail w (tick s + S k)
                then Some (next_tick (after_draws (S k) s),
                           JSONError StatusInternalServerError
                             "Failed to create short URL")
                else Some (add_log
                             (LogCreated (draw w (rpos s) k) (LongURL req))
                             (set_urls
                                (<[draw w (rpos s) k := LongURL req]> (urls s))
                                (next_tick (after_draws (S k) s))),
                           JSONShorten StatusOK
                             {| ShortCode := draw w (rpos s) k;
                                ShortURL := "http://localhost:8000/"
                                            ++ draw w (rpos s) k;
                                RespLongURL := LongURL req |})))
  /\ (forall k,
        (forall i, i <= S k -> dbfail w (tick s + i) = false) ->
        (forall i, i < k -> is_Some (urls s !! draw w (rpos s) i)) ->
        urls s !! draw w (rpos s) k = None ->
        (forall fuel, fuel < k -> createShortURL fuel w s b = None)
        /\ forall fuel, k <= fuel ->
             exists s',
               createShortURL fuel w s b
               = Some (s', JSONShorten StatusOK
                             {| ShortCode := draw w (rpos s) k;
                                ShortURL := "http://localhost:8000/"
                                            ++ draw w (rpos s) k;
                                RespLongURL := LongURL req |})
               /\ urls s' = <[draw w (rpos s) k := LongURL req]> (urls s)
               /\ rpos s' = rpos s + 6 * S k).
Proof.
  intros Hb.
  assert (Hexact : forall k,
    dbfail w (tick s) = false ->
    (forall i, i < k -> accepted w s i = false) ->
    accepted w s k = true ->
    urls s !! draw w (rpos s) k = None
    /\ (forall fuel, fuel < k -> createShortURL fuel w s b = None)
    /\ (forall fuel, k <= fuel ->
          createShortURL fuel w s b
          = if dbfail w (tick s + S k)
            then Some (next_tick (after_draws (S k) s),
                       JSONError StatusInternalServerError
                         "Failed to create short URL")
            else Some (add_log (LogCreated (draw w (rpos s) k) (LongURL req))
                         (set_urls
                            (<[draw w (rpos s) k := LongURL req]> (urls s))
                            (next_tick (after_draws (S k) s))),
                       JSONShorten StatusOK
                         {| ShortCode := draw w (rpos s) k;
                            ShortURL := "http://localhost:8000/"
                                        ++ draw w (rpos s) k;
                            RespLongURL := LongURL req |}))).
  { intros k Hdb Hrej Hok. split_and!.
    - unfold accepted in Hok. apply andb_true_iff in Hok.
      apply fresh_lookup. tauto.
    - intros fuel Hf.
      rewrite (createShortURL_first_accepted w s b req k fuel Hb Hdb Hrej Hok).
      apply Nat.ltb_lt in Hf. rewrite Hf. reflexivity.
    - intros fuel Hf.
      rewrite (createShortURL_first_accepted w s b req k fuel Hb Hdb Hrej Hok).
      apply Nat.ltb_ge in Hf. rewrite Hf. reflexivity. }
  split_and!.
  - intros fuel s' resp. unfold createShortURL. rewrite Hb.
    rewrite (surjective_pairing (generateShortCode w s)).
    rewrite draw_0, generateShortCode_state.
    unfold query_count at 1. cbn [tick urls advance_rand].
    destruct (dbfail w (tick s)) eqn:Hf.
    { intros [= <- _]. left; reflexivity. }
    assert (Hloop : forall s3 c3,
      regenerate fuel w (next_tick (advance_rand 6 s)) (draw w (rpos s) 0)
        (count_rows (urls s) (draw w (rpos s) 0)) = Some (s3, c3) ->
      exists k, (forall i, i < k -> accepted w s i = false)
        /\ accepted w s k = true /\ c3 = draw w (rpos s) k
        /\ urls s3 = urls s).
    { intros s3 c3 Hr.
      destruct (count_rows (urls s) (draw w (rpos s) 0)) as [|n] eqn:Hc.
      - rewrite regenerate_exit in Hr. injection Hr as <- <-.
        exists 0. repeat split; [intros i Hi; lia | ].
        unfold accepted, fresh. replace (tick s + 0) with (tick s) by lia.
        rewrite Hf, Hc. reflexivity.
      - apply regenerate_Some in Hr; [|lia].
        destruct Hr as (k & _ & Hrej & Hok & -> & ->).
        exists (S k). repeat split.
        + intros [|i] Hi.
          * unfold accepted, fresh. rewrite Hc. apply andb_false_r.
          * rewrite <- accepted_shift. apply Hrej. lia.
        + rewrite <- accepted_shift. exact Hok.
        + cbn [rpos next_tick advance_rand]. apply draw_shift. }
    destruct (regenerate fuel w (next_tick (advance_rand 6 s))
                (draw w (rpos s) 0) (count_rows (urls s) (draw w (rpos s) 0)))
      as [[s3 c3]|]; [|discriminate].
    destruct (Hloop s3 c3 eq_refl) as (k & Hrej & Hok & -> & Hu).
    rewrite (surjective_pairing
               (exec_insert w s3 (draw w (rpos s) k) (LongURL req))).
    destruct (exec_insert_cases w s3 (draw w (rpos s) k) (LongURL req))
      as [(Hr & _ & Hnone & Hins)|((e & He) & Hsame)].
    + rewrite Hr. intros [= <- <-]. right. exists k.
      rewrite Hu in Hnone, Hins. repeat split; auto.
    + rewrite He. intros [= <- _]. left. congruence.
  - exact Hexact.
  - intros k Hdb Hcoll Hnone.
    assert (H0 : dbfail w (tick s) = false).
    { rewrite <- (Nat.add_0_r (tick s)). apply Hdb. lia. }
    assert (Hrej : forall i, i < k -> accepted w s i = false).
    { intros i Hi. rewrite accepted_answering by (apply Hdb; lia).
      rewrite bool_decide_eq_true_2 by (apply Hcoll; exact Hi). reflexivity. }
    assert (Hok : accepted w s k = true).
    { rewrite accepted_answering by (apply Hdb; lia).
      rewrite bool_decide_eq_false_2; [reflexivity|].
      rewrite Hnone. intros [u Hu]. discriminate. }
    destruct (Hexact k H0 Hrej Hok) as (_ & Hrun & Hret).
    split; [exact Hrun|].
    intros fuel Hf. rewrite (Hret fuel Hf).
    rewrite (Hdb (S k)) by lia.
    eexists. split; [reflexivity|]. split; reflexivity.
Qed.

Lemma insert_only_absent_code_witness :
  ShouldBindJSON example_body = inr {| LongURL := "https://example.com" |}
  /\ is_Some (urls one_link !! draw calm (rpos one_link) 0)
  /\ urls one_link !! draw calm (rpos one_link) 1 = None
  /\ createShortURL 0 calm one_link example_body = None
  /\ exists s',
       createShortURL 3 calm one_link example_body
       = Some (s', JSONShorten StatusOK
                     {| ShortCode := draw calm (rpos one_link) 1;
                        ShortURL := "http://localhost:8000/"
                                    ++ draw calm (rpos one_link) 1;
                        RespLongURL := "https://example.com" |})
       /\ urls s' = <[draw calm (rpos one_link) 1 := "https://example.com"]>
                      (urls one_link)
       /\ rpos s' = rpos one_link + 6 * 2.
Proof.
  assert (Hcoll : forall i, i < 1 ->
            is_Some (urls one_link !! draw calm (rpos one_link) i)).
  { intros i Hi. replace i with 0 by lia. vm_compute. eauto. }
  assert (Hnone : urls one_link !! draw calm (rpos one_link) 1 = None)
    by (vm_compute; reflexivity).
  destruct (insert_only_absent_code calm one_link example_body
              {| LongURL := "https://example.com" |} eq_refl)
    as (_ & _ & H).
  destruct (H 1 (fun i _ => eq_refl) Hcoll Hnone) as (Hrun & Hret).
  split_and!.
  - reflexivity.
  - apply Hcoll. lia.
  - exact Hnone.
  - apply Hrun. lia.
  - apply (Hret 3). lia.
Defined.

(** *** Termination of the loop *)

(** C3, at the failing input. A request finds [AAAAAA] taken and then
    loses its database. The random stream holds a code that is not in the
    store, [______], drawn next, so the loop should end; but the error of
    the re-check is dropped where the first check answers 500, [exists]
    keeps its value, and no amount of fuel lets the request return. *)
Lemma recheck_failure_spins :
  urls one_link !! draw flaky (rpos one_link) 1 = None
  /\ forall fuel, createShortURL fuel flaky one_link example_body = None.
Proof.
  split; [vm_compute; reflexivity|].
  intros fuel. unfold createShortURL.
  change (ShouldBindJSON example_body)
    with (@inr string _ {| LongURL := "https://example.com" |}).
  cbv beta iota.
  assert (Hg : generateShortCode flaky one_link
               = (advance_rand 6 one_link, "AAAAAA"))
    by (vm_compute; reflexivity).
  rewrite Hg.
  assert (Hq : query_count flaky (advance_rand 6 one_link) "AAAAAA"
               = (next_tick (advance_rand 6 one_link), inr 1))
    by (vm_compute; reflexivity).
  rewrite Hq.
  rewrite regenerate_running; [reflexivity | lia | ].
  intros i _. unfold accepted. reflexivity.
Qed.

(** X14. The loop has no cap and no failure exit: as long as no draw was
    accepted it is still running. It returns exactly when some draw ahead
    has its re-check answered by the store and is absent from it; so, when
    the store answers every re-check, exactly when some draw ahead is
    absent from the store. *)
Theorem retry_loop_termination (w : World) (s : State) (code : string)
    (ex : nat) :
  0 < ex ->
  (forall n,
      (forall i, i < n ->
         dbfail w (tick s + i) = true
         \/ is_Some (urls s !! draw w (rpos s) i)) ->
      regenerate n w s code ex = None)
  /\ ((exists fuel s' code', regenerate fuel w s code ex = Some (s', code'))
      <-> (exists k, dbfail w (tick s + k) = false
                     /\ urls s !! draw w (rpos s) k = None))
  /\ ((forall i, dbfail w (tick s + i) = false) ->
      ((exists fuel s' code', regenerate fuel w s code ex = Some (s', code'))
       <-> (exists k, urls s !! draw w (rpos s) k = None))).
Proof.
  intros Hex.
  assert (Hacc : forall i,
    accepted w s i = true
    <-> dbfail w (tick s + i) = false /\ urls s !! draw w (rpos s) i = None).
  { intros i. unfold accepted. rewrite andb_true_iff, negb_true_iff.
    rewrite fresh_lookup. tauto. }
  assert (Hiff :
    (exists fuel s' code', regenerate fuel w s code ex = Some (s', code'))
    <-> (exists k, dbfail w (tick s + k) = false
                   /\ urls s !! draw w (rpos s) k = None)).
  { split.
    - intros (fuel & s' & code' & Hr).
      apply regenerate_Some in Hr; [|exact Hex].
      destruct Hr as (k & _ & _ & Hk & _).
      exists k. apply Hacc. exact Hk.
    - intros (k & Hk). exists (S k).
      apply regenerate_returns; [exact Hex|]. apply Hacc. exact Hk. }
  split_and!.
  - intros n Hn. apply regenerate_running; [exact Hex|].
    intros i Hi. destruct (accepted w s i) eqn:E; [|reflexivity].
    apply Hacc in E. destruct E as [Hdb Hnone].
    destruct (Hn i Hi) as [Hf | [u Hu]]; congruence.
  - exact Hiff.
  - intros Hdb. rewrite Hiff. split.
    + intros (k & _ & Hk). eauto.
    + intros (k & Hk). eauto.
Qed.

Lemma retry_loop_termination_witness :
  0 < 1
  /\ (exists fuel s' code',
        regenerate fuel calm (after_draws 1 one_link) "AAAAAA" 1
        = Some (s', code'))
  /\ (exists k, urls (after_draws 1 one_link)
                !! draw calm (rpos (after_draws 1 one_link)) k = None).
Proof.
  split; [lia|].
  destruct (retry_loop_termination calm (after_draws 1 one_link) "AAAAAA" 1)
    as (_ & _ & H); [lia|].
  assert (Hk : exists k, urls (after_draws 1 one_link)
                 !! draw calm (rpos (after_draws 1 one_link)) k = None)
    by (exists 0; vm_compute; reflexivity).
  split; [|exact Hk].
  apply (H (fun i => eq_refl)). exact Hk.
Defined.

(** *** Redirects *)

Lemma hexEscapeNonASCII_ASCII (u : string) :
  is_ASCII u = true -> hexEscapeNonASCII u = u.
Proof.
  unfold is_ASCII. induction u as [|c r IH]; cbn [all_chars hexEscapeNonASCII];
    [reflexivity|].
  intros H. apply andb_true_iff in H. destruct H as [Hc Hr].
  apply N.ltb_lt in Hc.
  destruct (128 <=? N_of_ascii c)%N eqn:E; [apply N.leb_le in E; lia|].
  rewrite IH by exact Hr. reflexivity.
Qed.

Lemma headerNewlineToSpace_clean (u : string) :
  all_chars (fun c => negb (is_line_break c)) u = true ->
  headerNewlineToSpace u = u.
Proof.
  induction u as [|c r IH]; cbn [all_chars headerNewlineToSpace];
    [reflexivity|].
  intros H. apply andb_true_iff in H. destruct H as [Hc Hr].
  apply negb_true_iff in Hc. rewrite Hc, (IH Hr). reflexivity.
Qed.

Lemma trim_right_clean (u : string) (c : ascii) :
  last_char u = Some c -> is_blank c = false -> trim_right u = u.
Proof.
  induction u as [|a r IH]; [discriminate|].
  destruct r as [|b r'].
  - cbn [last_char trim_right]. intros [= ->] ->. reflexivity.
  - intros Hl Hb. change (last_char (String a (String b r')))
      with (last_char (String b r')) in Hl.
    specialize (IH Hl Hb).
    change (trim_right (String a (String b r')))
      with (match trim_right (String b r') with
            | EmptyString =>
                if is_blank a then EmptyString else String a EmptyString
            | r0 => String a r0
            end).
    rewrite IH. reflexivity.
Qed.

Lemma last_char_Some (r : string) :
  forall c, exists l, last_char (String c r) = Some l.
Proof.
  induction r as [|b r IH]; intros c; [cbn; eauto|].
  change (last_char (String c (String b r))) with (last_char (String b r)).
  apply IH.
Qed.

Lemma header_value_clean (u : string) :
  header_clean u = true -> header_value u = u.
Proof.
  unfold header_clean, header_value, TrimString. intros H.
  apply andb_true_iff in H. destruct H as [H Hlast].
  apply andb_true_iff in H. destruct H as [Hbreak Hfirst].
  rewrite (headerNewlineToSpace_clean u Hbreak).
  destruct u as [|c r]; [reflexivity|].
  apply negb_true_iff in Hfirst. cbn [trim_left]. rewrite Hfirst.
  destruct (last_char (String c r)) as [l|] eqn:Hl.
  - apply negb_true_iff in Hlast. exact (trim_right_clean _ l Hl Hlast).
  - destruct (last_char_Some r c) as [l Hl']. congruence.
Qed.

(** [http.Redirect] leaves alone, but for the escaping, a URL that does
    not parse and one in which a scheme or a host was found. *)
Lemma Location_not_relative (parsed : option ParsedURL) (oldpath u : string) :
  parsed = None
  \/ (exists p, parsed = Some p /\ (Scheme p <> "" \/ Host p <> "")) ->
  Location parsed oldpath u = header_value (hexEscapeNonASCII u).
Proof.
  intros [-> | (p & -> & Hp)]; [reflexivity|].
  unfold Location.
  destruct (String.eqb (Scheme p) "") eqn:E1; [|reflexivity].
  destruct (String.eqb (Host p) "") eqn:E2; [|reflexivity].
  apply String.eqb_eq in E1, E2. tauto.
Qed.

Lemma path_dir_no_slash (c : string) :
  contains_slash c = false -> path_dir c = EmptyString.
Proof.
  destruct c as [|a r]; [reflexivity|].
  cbn [contains_slash path_dir]. intros ->. reflexivity.
Qed.

Lemma path_dir_param (c : string) :
  contains_slash c = false -> path_dir ("/" ++ c) = "/".
Proof.
  intros Hc. change ("/" ++ c) with (String "/" c). cbn [path_dir].
  change (is_slash "/") with true. cbn [orb].
  rewrite (path_dir_no_slash c Hc). reflexivity.
Qed.

(** On a routed request the path has one segment, so the [Location] does
    not depend on the code asked for. *)
Lemma Location_param (parsed : option ParsedURL) (c u : string) :
  is_param c = true ->
  Location parsed ("/" ++ c) u = Location parsed "/" u.
Proof.
  unfold is_param. intros H. apply andb_true_iff in H.
  destruct H as [_ H]. apply negb_true_iff in H.
  unfold Location. destruct parsed as [p|]; [|reflexivity].
  destruct (String.eqb (Scheme p) "" && String.eqb (Host p) "");
    [|reflexivity].
  change (String.eqb ("/" ++ c) "") with false.
  change (String.eqb "/" "") with false. cbv iota.
  rewrite (path_dir_param c H). reflexivity.
Qed.

Lemma serve_GET_response (w : World) (s : State) (code now : string)
    (net : post_result) :
  snd (serve_GET w s code now net)
  = if dbfail w (tick s)
    then JSONError StatusInternalServerError "Database error"
    else match urls s !! code with
         | None => JSONError StatusNotFound "Short URL not found"
         | Some target =>
             Redirect StatusMovedPermanently
               (Location (url_Parse w target) ("/" ++ code) target)
         end.
Proof.
  unfold serve_GET, redirect, query_long_url, c_Redirect.
  destruct (dbfail w (tick s)); [reflexivity|].
  destruct (urls s !! code); reflexivity.
Qed.

(** A long URL without a scheme is accepted by [POST /api/shorten] and
    stored as sent, and the redirect for its code does not lead to it:
    [example.com] is answered with [Location: /example.com]. A stored URL
    with bytes outside ASCII is answered with those bytes escaped. *)
Lemma redirect_rewrites_target :
  createShortURL 0 calm fresh_start bare_body
  = Some (bare_link,
          JSONShorten 200 {| ShortCode := "AAAAAA";
                             ShortURL := "http://localhost:8000/AAAAAA";
                             RespLongURL := "example.com" |})
  /\ urls bare_link !! "AAAAAA" = Some "example.com"
  /\ (forall now net,
        snd (serve_GET calm bare_link "AAAAAA" now net)
        = Redirect 301 "/example.com")
  /\ "/example.com" <> "example.com"
  /\ urls accented_link !! "AAAAAA" = Some accented_url
  /\ (forall now net,
        snd (serve_GET calm accented_link "AAAAAA" now net)
        = Redirect 301 "https://example.com/caf%c3%a9")
  /\ "https://example.com/caf%c3%a9" <> accented_url.
Proof.
  split_and!; try discriminate; vm_compute; reflexivity.
Qed.

(** C4, as the code has it. [GET /:code] answers 500 when the lookup
    fails, 404 when the lookup is answered and the code has no row, and
    otherwise 301 with the [Location] that [http.Redirect] makes of the
    stored long URL; the handler is reached when the code is one non-empty
    path segment. That is the stored long URL itself when it is ASCII,
    has no line break and no blank at either end, and [url.Parse] fails on
    it or finds a scheme or a host in it. A stored URL in which [url.Parse]
    finds neither is made an absolute path, the same for every code. *)
Theorem redirect_taxonomy (w : World) (s : State) (code now : string)
    (net : post_result) :
  (dbfail w (tick s) = true ->
   snd (serve_GET w s code now net)
   = JSONError StatusInternalServerError "Database error")
  /\ (dbfail w (tick s) = false -> urls s !! code = None ->
      snd (serve_GET w s code now net)
      = JSONError StatusNotFound "Short URL not found")
  /\ (forall target,
        dbfail w (tick s) = false -> urls s !! code = Some target ->
        snd (serve_GET w s code now net)
        = Redirect StatusMovedPermanently
            (Location (url_Parse w target) ("/" ++ code) target)
        /\ (is_ASCII target = true ->
            header_clean target = true ->
            url_Parse w target = None
            \/ (exists p, url_Parse w target = Some p
                          /\ (Scheme p <> "" \/ Host p <> "")) ->
            snd (serve_GET w s code now net)
            = Redirect StatusMovedPermanently target)
        /\ (is_param code = true ->
            snd (serve_GET w s code now net)
            = Redirect StatusMovedPermanently
                (Location (url_Parse w target) "/" target)))
  /\ (forall fuel,
        serve fuel w s (GET_code code now net)
        = if is_param code then Some (serve_GET w s code now net)
          else Some (s, NoRoute)).
Proof.
  rewrite serve_GET_response.
  split_and!; [| | |reflexivity].
  - intros ->. reflexivity.
  - intros -> ->. reflexivity.
  - intros target -> ->. split_and!.
    + reflexivity.
    + intros Hascii Hclean Hp. rewrite Location_not_relative by exact Hp.
      rewrite hexEscapeNonASCII_ASCII by exact Hascii.
      rewrite header_value_clean by exact Hclean. reflexivity.
    + intros Hc. rewrite Location_param by exact Hc. reflexivity.
Qed.

Lemma redirect_taxonomy_witness :
  snd (serve_GET down one_link "AAAAAA" "2024-01-01T00:00:00Z" PostTimeout)
  = JSONError 500 "Database error"
  /\ snd (serve_GET calm one_link "zzzzzz" "2024-01-01T00:00:00Z" PostTimeout)
     = JSONError 404 "Short URL not found"
  /\ snd (serve_GET calm one_link "AAAAAA" "2024-01-01T00:00:00Z" PostTimeout)
     = Redirect 301 "https://example.org/".
Proof.
  split; [|split].
  - apply (proj1 (redirect_taxonomy down one_link "AAAAAA"
                    "2024-01-01T00:00:00Z" PostTimeout)).
    reflexivity.
  - apply (proj1 (proj2 (redirect_taxonomy calm one_link "zzzzzz"
                           "2024-01-01T00:00:00Z" PostTimeout)));
      vm_compute; reflexivity.
  - destruct (proj1 (proj2 (proj2 (redirect_taxonomy calm one_link "AAAAAA"
                                     "2024-01-01T00:00:00Z" PostTimeout)))
                "https://example.org/") as (_ & H & _);
      [vm_compute; reflexivity | vm_compute; reflexivity |].
    apply H; [vm_compute; reflexivity | vm_compute; reflexivity |].
    right. eexists. split; [vm_compute; reflexivity|].
    left. discriminate.
Defined.

(** *** The click notification *)

Lemma sendClickEvent_frame (now : string) (net : post_result)
    (code : string) (s : State) :
  urls (sendClickEvent now net code s) = urls s
  /\ rpos (sendClickEvent now net code s) = rpos s
  /\ tick (sendClickEvent now net code s) = tick s
  /\ posts (sendClickEvent now net code s)
     = (posts s ++ [{| ev_short_code := code; ev_clicked_at := now |}])%list
  /\ exists l, logs (sendClickEvent now net code s) = (logs s ++ [l])%list.
Proof.
  unfold sendClickEvent.
  destruct net as [| |st]; [| |destruct (Nat.eqb st StatusOK)];
    cbn; repeat split; eauto.
Qed.

(** C5. Two runs of [GET /:code] from the same state that meet different
    notification outcomes deliver the same response, leave the same
    store, and have sent the same requests to the analytics service: the
    one event of a successful lookup, or none; nothing is sent twice and
    nothing is kept for later. The runs differ in one log line at most. *)
Theorem notification_outcome_invisible (w : World) (s : State)
    (code now : string) (net1 net2 : post_result) :
  let run1 := serve_GET w s code now net1 in
  let run2 := serve_GET w s code now net2 in
  snd run1 = snd run2
  /\ urls (fst run1) = urls s /\ urls (fst run2) = urls s
  /\ tick (fst run1) = tick (fst run2)
  /\ rpos (fst run1) = rpos (fst run2)
  /\ posts (fst run1) = posts (fst run2)
  /\ (exists sent, length sent <= 1 /\ posts (fst run1) = (posts s ++ sent)%list)
  /\ (exists l1 l2, length l1 <= 1 /\ length l2 <= 1
       /\ logs (fst run1) = (logs s ++ l1)%list
       /\ logs (fst run2) = (logs s ++ l2)%list).
Proof.
  unfold serve_GET, redirect, query_long_url. cbv zeta.
  destruct (dbfail w (tick s)); [|destruct (urls s !! code) as [u|]];
    cbn [fst snd].
  - split_and!; try reflexivity.
    + exists []. rewrite app_nil_r. split; [cbn; lia | reflexivity].
    + exists [], []. rewrite app_nil_r. cbn. auto.
  - destruct (sendClickEvent_frame now net1 code (next_tick s))
      as (Hu1 & Hr1 & Ht1 & Hp1 & l1 & Hl1).
    destruct (sendClickEvent_frame now net2 code (next_tick s))
      as (Hu2 & Hr2 & Ht2 & Hp2 & l2 & Hl2).
    cbn [urls rpos tick posts logs next_tick] in *.
    split_and!; try congruence.
    + eexists; split; [|exact Hp1]. cbn; lia.
    + exists [l1], [l2]. cbn [length]. auto.
  - split_and!; try reflexivity.
    + exists []. rewrite app_nil_r. split; [cbn; lia | reflexivity].
    + exists [], []. rewrite app_nil_r. cbn. auto.
Qed.

(** *** Stored mappings are permanent *)

Lemma regenerate_urls (fuel : nat) (w : World) :
  forall s code ex s' code',
    regenerate fuel w s code ex = Some (s', code') -> urls s' = urls s.
Proof.
  induction fuel as [|fuel IH]; intros s code ex s' code'; cbn [regenerate].
  - destruct (Nat.ltb 0 ex); [discriminate|]. intros [= <- _]. reflexivity.
  - destruct (Nat.ltb 0 ex); [|intros [= <- _]; reflexivity].
    rewrite (surjective_pairing (generateShortCode w s)).
    rewrite generateShortCode_state.
    unfold query_count at 1. intros Hr. apply IH in Hr. exact Hr.
Qed.

(** What a creation request does to the table, whatever the loop did:
    nothing, or one insertion at a key that had no row, which is then
    the code of the response. *)
Lemma createShortURL_urls (fuel : nat) (w : World) (s s' : State)
    (b : body) (resp : response) :
  createShortURL fuel w s b = Some (s', resp) ->
  (urls s' = urls s /\ exists status msg, resp = JSONError status msg)
  \/ exists r,
       resp = JSONShorten StatusOK r
       /\ urls s !! ShortCode r = None
       /\ urls s' = <[ShortCode r := RespLongURL r]> (urls s).
Proof.
  unfold createShortURL.
  destruct (ShouldBindJSON b) as [msg|req].
  { intros [= <- <-]. left; eauto. }
  rewrite (surjective_pairing (generateShortCode w s)).
  rewrite generateShortCode_state.
  unfold query_count at 1. cbn [tick urls advance_rand].
  destruct (dbfail w (tick s)).
  { intros [= <- <-]. left; eauto. }
  destruct (regenerate fuel w _ _ _) as [[s3 c3]|] eqn:Hr; [|discriminate].
  apply regenerate_urls in Hr. cbn [urls next_tick advance_rand] in Hr.
  rewrite (surjective_pairing (exec_insert w s3 c3 (LongURL req))).
  destruct (exec_insert_cases w s3 c3 (LongURL req))
    as [(He & _ & Hnone & Hins)|((e & He) & Hsame)]; rewrite He.
  - intros [= <- <-]. right. eexists; split; [reflexivity|].
    cbn [ShortCode RespLongURL urls add_log]. rewrite <- Hr. auto.
  - intros [= <- <-]. left. split; [congruence | eauto].
Qed.

Lemma serve_GET_urls (w : World) (s : State) (code now : string)
    (net : post_result) :
  urls (fst (serve_GET w s code now net)) = urls s.
Proof.
  unfold serve_GET, redirect, query_long_url.
  destruct (dbfail w (tick s)); [reflexivity|].
  destruct (urls s !! code); [|reflexivity].
  cbn [fst]. apply (proj1 (sendClickEvent_frame now net code (next_tick s))).
Qed.

Lemma serve_keeps (fuel : nat) (w : World) (s s' : State) (r : request)
    (resp : response) (code target : string) :
  serve fuel w s r = Some (s', resp) ->
  urls s !! code = Some target ->
  urls s' !! code = Some target.
Proof.
  destruct r as [b|c now net]; cbn [serve].
  - intros Hc Hl. apply createShortURL_urls in Hc.
    destruct Hc as [[-> _]|(r & _ & Hnone & ->)]; [exact Hl|].
    rewrite lookup_insert_ne; [exact Hl|]. congruence.
  - destruct (is_param c); [|intros [= <- _]; tauto].
    intros [= H] Hl. pose proof (serve_GET_urls w s c now net) as Hu.
    rewrite H in Hu. cbn [fst] in Hu. rewrite Hu. exact Hl.
Qed.

Lemma run_keeps (fuel : nat) (w : World) (rs : list request) :
  forall s s' resps code target,
    run fuel w s rs = Some (s', resps) ->
    urls s !! code = Some target ->
    urls s' !! code = Some target.
Proof.
  induction rs as [|r rs IH]; intros s s' resps code target; cbn [run].
  - intros [= <- _]. tauto.
  - destruct (serve fuel w s r) as [[s1 resp]|] eqn:Hs; [|discriminate].
    destruct (run fuel w s1 rs) as [[s2 resps']|] eqn:Hr; [|discriminate].
    intros [= <- _] Hl. eapply IH; [exact Hr|].
    eapply serve_keeps; eauto.
Qed.

(** A code handed out by a creation is one path segment, so a [GET] for
    it is routed to [redirect]. *)
Lemma urlsafe_not_slash (c : ascii) : is_urlsafe c = true -> is_slash c = false.
Proof.
  intros H. destruct (is_slash c) eqn:E; [|reflexivity].
  apply Ascii.eqb_eq in E. subst c. vm_compute in H. discriminate.
Qed.

Lemma well_formed_param (code : string) : well_formed code -> is_param code = true.
Proof.
  intros [Hlen Hall]. unfold is_param.
  assert (Hs : contains_slash code = false).
  { clear Hlen. induction code as [|c r IH]; [reflexivity|].
    cbn [all_chars] in Hall. apply andb_true_iff in Hall.
    destruct Hall as [Hc Hr]. cbn [contains_slash].
    rewrite (urlsafe_not_slash c Hc), (IH Hr). reflexivity. }
  rewrite Hs. destruct code; [discriminate|reflexivity].
Qed.

Lemma createShortURL_code (fuel : nat) (w : World) (s s' : State)
    (b : body) (status : nat) (r : ShortenResponse) :
  createShortURL fuel w s b = Some (s', JSONShorten status r) ->
  well_formed (ShortCode r).
Proof.
  unfold createShortURL.
  destruct (ShouldBindJSON b) as [msg|req]; [discriminate|].
  destruct (generateShortCode w s) as [s1 c1] eqn:Hg.
  destruct (query_count w s1 c1) as [s2 [e|ex]]; [discriminate|].
  destruct (regenerate fuel w s2 c1 ex) as [[s3 c3]|] eqn:Hr; [|discriminate].
  destruct (exec_insert w s3 c3 (LongURL req)) as [s4 [e|u]]; [discriminate|].
  intros [= _ _ <-]. cbn [ShortCode].
  apply (regenerate_well_formed fuel w s2 c1 ex s3 c3); [|exact Hr].
  change c1 with (snd (s1, c1)). rewrite <- Hg.
  apply generateShortCode_well_formed.
Qed.

(** C6. No request updates or deletes a row. Once [POST /api/shorten] has
    answered with a code, any further sequence of requests leaves every
    stored pair as it was; the code is still mapped to the URL it was
    created for, and a [GET] for it is routed to the handler and, whenever
    the lookup is answered, redirects to the same place: the [Location]
    that [http.Redirect] makes of that URL, which is the URL itself when
    it is ASCII, has no line break and no blank at either end, and has a
    scheme or a host. *)
Theorem stored_mapping_is_permanent (fuel : nat) (w : World)
    (s0 s1 s2 : State) (b : body) (status : nat) (r : ShortenResponse)
    (rs : list request) (resps : list response) :
  createShortURL fuel w s0 b = Some (s1, JSONShorten status r) ->
  run fuel w s1 rs = Some (s2, resps) ->
  (forall code target,
      urls s1 !! code = Some target -> urls s2 !! code = Some target)
  /\ urls s2 !! ShortCode r = Some (RespLongURL r)
  /\ forall now net,
       serve fuel w s2 (GET_code (ShortCode r) now net)
       = Some (serve_GET w s2 (ShortCode r) now net)
       /\ (dbfail w (tick s2) = false ->
           snd (serve_GET w s2 (ShortCode r) now net)
           = Redirect StatusMovedPermanently
               (Location (url_Parse w (RespLongURL r)) "/" (RespLongURL r))
           /\ (is_ASCII (RespLongURL r) = true ->
               header_clean (RespLongURL r) = true ->
               url_Parse w (RespLongURL r) = None
               \/ (exists p, url_Parse w (RespLongURL r) = Some p
                             /\ (Scheme p <> "" \/ Host p <> "")) ->
               snd (serve_GET w s2 (ShortCode r) now net)
               = Redirect StatusMovedPermanently (RespLongURL r))).
Proof.
  intros Hc Hrun.
  assert (Hparam : is_param (ShortCode r) = true).
  { apply well_formed_param. eapply createShortURL_code. exact Hc. }
  assert (Hl : urls s2 !! ShortCode r = Some (RespLongURL r)).
  { eapply run_keeps; [exact Hrun|].
    apply createShortURL_urls in Hc.
    destruct Hc as [[_ (st & msg & [=])]|(r' & [= _ <-] & _ & ->)].
    apply lookup_insert_eq. }
  split_and!.
  - intros code target. eapply run_keeps. exact Hrun.
  - exact Hl.
  - intros now net. split.
    + cbn [serve]. rewrite Hparam. reflexivity.
    + intros Hdb. rewrite serve_GET_response, Hdb, Hl. split.
      * rewrite Location_param by exact Hparam. reflexivity.
      * intros Hascii Hclean Hp. rewrite Location_not_relative by exact Hp.
        rewrite hexEscapeNonASCII_ASCII by exact Hascii.
        rewrite header_value_clean by exact Hclean. reflexivity.
Qed.

Lemma stored_mapping_is_permanent_witness :
  createShortURL 3 calm one_link example_body
  = Some (two_links, JSONShorten 200 created_response)
  /\ run 3 calm two_links two_lookups
     = Some (after_lookups,
             [Redirect 301 "https://example.com";
              JSONError 404 "Short URL not found"])
  /\ (forall code target,
        urls two_links !! code = Some target ->
        urls after_lookups !! code = Some target)
  /\ urls after_lookups !! ShortCode created_response
     = Some (RespLongURL created_response)
  /\ snd (serve_GET calm after_lookups (ShortCode created_response)
            "2024-01-01T00:00:02Z" PostTimeout)
     = Redirect StatusMovedPermanently (RespLongURL created_response).
Proof.
  split; [vm_compute; reflexivity|].
  split; [vm_compute; reflexivity|].
  destruct (stored_mapping_is_permanent 3 calm one_link two_links after_lookups
              example_body 200 created_response two_lookups
              [Redirect 301 "https://example.com";
               JSONError 404 "Short URL not found"])
    as (H1 & H2 & H3); [vm_compute; reflexivity | vm_compute; reflexivity |].
  split; [exact H1|]. split; [exact H2|].
  destruct (H3 "2024-01-01T00:00:02Z" PostTimeout) as (_ & H4).
  destruct (H4 eq_refl) as (_ & H5).
  apply H5; [vm_compute; reflexivity | vm_compute; reflexivity |].
  right. eexists. split; [vm_compute; reflexivity|]. left. discriminate.
Defined.

End GoProps.

(** ** Properties of the metadata service *)
Module NodeProps.
Import Node.

Local Open Scope list_scope.

Lemma if_falsy_default (v : option jsstring) (c : N) (r : jsstring) :
  exists c' r', if_falsy v (Some (c :: r)) = Some (c' :: r').
Proof.
  unfold if_falsy. destruct v as [[|c' r']|]; cbn; eauto.
Qed.

(** The [try] block on a page that was fetched and loaded: title and
    description are settled, and whether it completes is up to the
    favicon. *)
Lemma try_fetch_outcome (P : Platform) (url : jsstring) (data : Data P)
    (q : Cheerio) :
  axios_get P url = Some data ->
  cheerio_load P data = Some q ->
  exists t d,
    if_falsy (if_falsy (Some (trim (text (q sel_title))))
                       (attr (q sel_og_title) (js "content")))
             (Some (js "No title found")) = Some t
    /\ if_falsy (if_falsy (attr (q sel_description) (js "content"))
                          (attr (q sel_og_description) (js "content")))
                (Some (js "No description available")) = Some d
    /\ fetchUrlMetadata P url
       = match resolve_favicon P url (favicon_loop q faviconSelectors None) with
         | Some f => {| title := substring 0 200 t;
                        description := substring 0 500 d;
                        favicon_url := Some f |}
         | None => unable_to_fetch
         end.
Proof.
  intros Hget Hload.
  destruct (if_falsy_default
              (if_falsy (Some (trim (text (q sel_title))))
                        (attr (q sel_og_title) (js "content")))
              78%N (tl (js "No title found"))) as (c & r & Ht).
  change (78%N :: tl (js "No title found")) with (js "No title found") in Ht.
  destruct (if_falsy_default
              (if_falsy (attr (q sel_description) (js "content"))
                        (attr (q sel_og_description) (js "content")))
              78%N (tl (js "No description available"))) as (c' & r' & Hd).
  change (78%N :: tl (js "No description available"))
    with (js "No description available") in Hd.
  exists (c :: r), (c' :: r'). split_and!; [exact Ht | exact Hd |].
  unfold fetchUrlMetadata, try_fetch. rewrite Hget. cbn [mbind option_bind].
  rewrite Hload. cbn [mbind option_bind].
  destruct (resolve_favicon P url (favicon_loop q faviconSelectors None))
    as [f|]; cbn [mbind option_bind]; [|reflexivity].
  rewrite Ht. cbn [mbind option_bind]. rewrite Hd. reflexivity.
Qed.

(** The favicon step throws exactly when it calls the URL constructor
    and the constructor rejects the target URL. *)
Lemma resolve_favicon_throws (P : Platform) (url : jsstring)
    (v : option jsstring) :
  resolve_favicon P url v = None
  <-> newURL P url = None /\ calls_URL v = true.
Proof.
  unfold resolve_favicon, calls_URL.
  destruct v as [[|c r]|].
  - destruct (newURL P url); cbn; split; try tauto; try discriminate.
    intros [? _]; discriminate.
  - destruct (startsWith (c :: r) (js "/")).
    + destruct (newURL P url); cbn; split; try tauto; try discriminate.
      intros [? _]; discriminate.
    + destruct (startsWith (c :: r) (js "http")); cbn [negb orb].
      * split; [discriminate | intros [_ ?]; discriminate].
      * destruct (newURL P url); cbn; split; try tauto; try discriminate.
        intros [? _]; discriminate.
  - destruct (newURL P url); cbn; split; try tauto; try discriminate.
    intros [? _]; discriminate.
Qed.

Lemma if_falsy_keep (c : N) (r : jsstring) (alt : option jsstring) :
  if_falsy (Some (c :: r)) alt = Some (c :: r).
Proof. reflexivity. Qed.

Lemma if_falsy_replace (v alt : option jsstring) :
  v = None \/ v = Some [] -> if_falsy v alt = alt.
Proof. intros [-> | ->]; reflexivity. Qed.

(** *** The title *)




(** *** The favicon *)

Lemma first_href_nonempty (q : Cheerio) (sels : list selector) (h : jsstring) :
  first_href q sels = Some h -> h <> [].
Proof.
  induction sels as [|sel rest IH]; cbn [first_href]; [discriminate|].
  destruct (attr (q sel) (js "href")) as [[|c r]|]; auto.
  intros [= <-]. discriminate.
Qed.

(** The loop of the source finds what [first_href] describes. *)
Lemma favicon_loop_first_href (q : Cheerio) (sels : list selector) :
  forall v0, truthy v0 = false ->
    match first_href q sels with
    | Some h => favicon_loop q sels v0 = Some h
    | None => truthy (favicon_loop q sels v0) = false
    end.
Proof.
  induction sels as [|sel rest IH]; intros v0 Hv0; cbn [first_href favicon_loop].
  - exact Hv0.
  - destruct (attr (q sel) (js "href")) as [[|c r]|]; cbn [truthy].
    + apply IH. reflexivity.
    + reflexivity.
    + apply IH. reflexivity.
Qed.

Lemma first_href_no_match (q : Cheerio) (sels : list selector) :
  (forall sel, In sel sels -> q sel = []) -> first_href q sels = None.
Proof.
  induction sels as [|sel rest IH]; intros Hno; cbn [first_href]; [reflexivity|].
  rewrite (Hno sel) by (left; reflexivity). cbn [attr].
  apply IH. intros sel' Hin. apply Hno. right. exact Hin.
Qed.

Lemma resolve_favicon_default (P : Platform) (url : jsstring) (u : URL)
    (v : option jsstring) :
  newURL P url = Some u ->
  truthy v = false ->
  resolve_favicon P url v
  = Some (protocol u ++ js "//" ++ hostname u ++ js "/favicon.ico").
Proof.
  intros Hu Hv. unfold resolve_favicon. rewrite Hu.
  destruct v as [[|c r]|]; [reflexivity | discriminate | reflexivity].
Qed.

Lemma resolve_favicon_found (P : Platform) (url : jsstring) (c : N)
    (r : jsstring) :
  resolve_favicon P url (Some (c :: r))
  = if startsWith (c :: r) (js "/") then
      match newURL P url with
      | Some u => Some (protocol u ++ js "//" ++ hostname u ++ c :: r)
      | None => None
      end
    else if startsWith (c :: r) (js "http") then Some (c :: r)
    else match newURL P url with
         | Some u =>
             Some (protocol u ++ js "//" ++ hostname u ++ js "/" ++ c :: r)
         | None => None
         end.
Proof.
  unfold resolve_favicon.
  destruct (startsWith (c :: r) (js "/")).
  - destruct (newURL P url); reflexivity.
  - destruct (startsWith (c :: r) (js "http")); cbn [negb]; [reflexivity|].
    destruct (newURL P url); reflexivity.
Qed.

(** Two pages on which the favicon is not what the description gives. An
    icon whose [href] is a [data:] URL, which is not relative, comes back
    with the scheme and host of the page put in front of it. A page served
    from port 8443 and without an icon gets a default that has lost the
    port. *)
Lemma favicon_chain_counterexample :
  (is_relative data_icon = false
   /\ first_href (load [link_icon data_icon]) faviconSelectors
      = Some data_icon
   /\ favicon_url (fetchUrlMetadata (static_site [link_icon data_icon])
                     page_url)
      = Some (js "https://example.com/data:image/png;base64,AAAA")
   /\ js "https://example.com/data:image/png;base64,AAAA" <> data_icon)
  /\ (favicon_url (fetchUrlMetadata (static_site []) port_url)
      = Some (js "https://example.com/favicon.ico")
      /\ js "https://example.com/favicon.ico"
         <> js "https://example.com:8443/favicon.ico").
Proof.
  split; split_and!; try (vm_compute; reflexivity); discriminate.
Qed.

(** C8, as the code has it. On a page that was fetched and loaded, the
    favicon comes from the first selector of the list, in order, whose
    first match carries a non-empty [href]. Whether that [href] is taken
    as it is depends on how it starts, not on its being relative: one
    that starts with [http] (and not with [/]) is returned unchanged; one
    that starts with a single [/] is appended to [protocol//hostname] of
    the target URL; any other is appended to [protocol//hostname/]. When
    no selector yields one the result is [protocol//hostname/favicon.ico].
    The hostname carries no port. Where the URL constructor is needed and
    rejects the target URL, the fetch counts as failed and there is no
    favicon. Nothing is said here of an [href] that starts with [//]. *)
Theorem favicon_resolution (P : Platform) (url : jsstring) (data : Data P)
    (q : Cheerio) :
  axios_get P url = Some data ->
  cheerio_load P data = Some q ->
  let found := first_href q faviconSelectors in
  let result := favicon_url (fetchUrlMetadata P url) in
  (forall h, found = Some h ->
     startsWith h (js "/") = false -> startsWith h (js "http") = true ->
     result = Some h)
  /\ (forall u, newURL P url = Some u ->
        let base := protocol u ++ js "//" ++ hostname u in
        ((forall sel, In sel faviconSelectors -> q sel = []) ->
         result = Some (base ++ js "/favicon.ico"))
        /\ (found = None -> result = Some (base ++ js "/favicon.ico"))
        /\ (forall h, found = Some h ->
              (startsWith h (js "/") = true ->
               startsWith h (js "//") = false ->
               result = Some (base ++ h))
              /\ (startsWith h (js "/") = false ->
                  startsWith h (js "http") = false ->
                  result = Some (base ++ js "/" ++ h))))
  /\ (newURL P url = None ->
      (found = None -> result = None)
      /\ (forall h, found = Some h ->
            startsWith h (js "//") = false ->
            startsWith h (js "/") = true \/ startsWith h (js "http") = false ->
            result = None)).
Proof.
  intros Hget Hload found result.
  destruct (try_fetch_outcome P url data q Hget Hload)
    as (t & d & _ & _ & Hm).
  pose proof (favicon_loop_first_href q faviconSelectors None eq_refl) as Hloop.
  fold found in Hloop.
  assert (Hfound : forall h, found = Some h ->
            exists c r, h = c :: r
              /\ result = match resolve_favicon P url (Some (c :: r)) with
                          | Some f => Some f
                          | None => None
                          end).
  { intros h Hh. rewrite Hh in Hloop.
    pose proof (first_href_nonempty _ _ _ Hh) as Hne.
    destruct h as [|c r]; [congruence|]. exists c, r. split; [reflexivity|].
    unfold result. rewrite Hm, Hloop.
    destruct (resolve_favicon P url (Some (c :: r))); reflexivity. }
  assert (Hmissing : found = None ->
            result = match newURL P url with
                     | Some u => Some (protocol u ++ js "//" ++ hostname u
                                       ++ js "/favicon.ico")
                     | None => None
                     end).
  { intros Hn. rewrite Hn in Hloop. unfold result. rewrite Hm.
    destruct (newURL P url) as [u|] eqn:Hu.
    - rewrite (resolve_favicon_default P url u _ Hu Hloop). reflexivity.
    - assert (Hthrow : resolve_favicon P url
                         (favicon_loop q faviconSelectors None) = None).
      { apply resolve_favicon_throws. split; [exact Hu|].
        unfold calls_URL.
        destruct (favicon_loop q faviconSelectors None) as [[|c r]|];
          [reflexivity | discriminate | reflexivity]. }
      rewrite Hthrow. reflexivity. }
  split_and!.
  - intros h Hh Hslash Hhttp.
    destruct (Hfound h Hh) as (c & r & -> & ->).
    rewrite resolve_favicon_found, Hslash, Hhttp. reflexivity.
  - intros u Hu base. split_and!.
    + intros Hno. rewrite Hmissing by (apply first_href_no_match; exact Hno).
      rewrite Hu. unfold base. rewrite <- !app_assoc. reflexivity.
    + intros Hn. rewrite (Hmissing Hn), Hu. unfold base.
      rewrite <- !app_assoc. reflexivity.
    + intros h Hh. destruct (Hfound h Hh) as (c & r & -> & ->).
      rewrite resolve_favicon_found, Hu. split.
      * intros -> _. unfold base. rewrite <- !app_assoc. reflexivity.
      * intros -> ->. unfold base. rewrite <- !app_assoc. reflexivity.
  - intros Hu. split.
    + intros Hn. rewrite (Hmissing Hn), Hu. reflexivity.
    + intros h Hh _ Hstart. destruct (Hfound h Hh) as (c & r & -> & ->).
      rewrite resolve_favicon_found, Hu.
      destruct (startsWith (c :: r) (js "/")); [reflexivity|].
      destruct Hstart as [?| ->]; [discriminate | reflexivity].
Qed.

Lemma favicon_resolution_witness :
  favicon_url (fetchUrlMetadata (static_site [link_icon (js "/icon.png")])
                 page_url)
  = Some (js "https://example.com/icon.png")
  /\ favicon_url (fetchUrlMetadata (static_site []) page_url)
     = Some (js "https://example.com/favicon.ico").
Proof.
  split.
  - pose proof (favicon_resolution (static_site [link_icon (js "/icon.png")])
                  page_url [link_icon (js "/icon.png")]
                  (load [link_icon (js "/icon.png")])
                  eq_refl eq_refl) as H.
    cbv zeta in H. destruct H as (_ & H & _).
    destruct (H {| protocol := js "https:"; hostname := js "example.com" |}
                eq_refl) as (_ & _ & H').
    destruct (H' (js "/icon.png") eq_refl) as (H1 & _).
    exact (H1 eq_refl eq_refl).
  - pose proof (favicon_resolution (static_site []) page_url [] (load [])
                  eq_refl eq_refl) as H.
    cbv zeta in H. destruct H as (_ & H & _).
    destruct (H {| protocol := js "https:"; hostname := js "example.com" |}
                eq_refl) as (H' & _).
    apply H'. intros sel _. reflexivity.
Defined.

(** *** Failed fetches *)

(** What makes the [try] block throw: the request, the load, or the URL
    constructor where the favicon needs it. *)
Lemma try_fetch_throws (P : Platform) (url : jsstring) :
  axios_get P url = None
  \/ (exists data, axios_get P url = Some data /\ cheerio_load P data = None)
  -> try_fetch P url = None.
Proof.
  unfold try_fetch. intros [-> | (data & -> & Hl)]; [reflexivity|].
  cbn [mbind option_bind]. rewrite Hl. reflexivity.
Qed.

Lemma fetchUrlMetadata_failed (P : Platform) (url : jsstring) :
  try_fetch P url = None -> fetchUrlMetadata P url = unable_to_fetch.
Proof. unfold fetchUrlMetadata. intros ->. reflexivity. Qed.

Lemma fetchUrlMetadata_favicon (P : Platform) (url f : jsstring) :
  favicon_url (fetchUrlMetadata P url) = Some f ->
  exists data q,
    axios_get P url = Some data /\ cheerio_load P data = Some q
    /\ exists m, try_fetch P url = Some m.
Proof.
  unfold fetchUrlMetadata.
  destruct (try_fetch P url) as [m|] eqn:Ht; [|discriminate].
  intros _. unfold try_fetch in Ht.
  destruct (axios_get P url) as [data|] eqn:Hget; [|discriminate].
  cbn [mbind option_bind] in Ht.
  destruct (cheerio_load P data) as [q|] eqn:Hload; [|discriminate].
  exists data, q. split_and!; [reflexivity | exact Hload | ].
  exists m. reflexivity.
Qed.

(** With the site unreachable and the store refusing the write, the
    answer is 500 and nothing is stored. *)
Lemma store_failure_counterexample :
  try_fetch unreachable_site page_url = None
  /\ post_metadata unreachable_site true ∅
       {| short_code := Some (js "abc123"); long_url := Some page_url |}
     = (∅, Error 500 "Failed to store metadata").
Proof. split; reflexivity. Qed.

(** C9, as the code has it. When both fields are present and the fetch
    fails, the failure is not reported: the placeholder takes the place of
    the metadata. If the store accepts the write, the placeholder becomes
    the record of that code, replacing any earlier one and leaving the
    other codes alone, and the answer is 200 with the placeholder and
    status [success]. If the store refuses the write, the answer is 500
    and the table is as before. *)
Theorem failed_fetch_is_best_effort (P : Platform) (dbfails : bool)
    (tbl : gmap jsstring Row) (code url : jsstring) :
  code <> [] -> url <> [] ->
  try_fetch P url = None ->
  let out := post_metadata P dbfails tbl
               {| short_code := Some code; long_url := Some url |} in
  let placeholder :=
    {| row_url := url; row_title := js "Unable to fetch title";
       row_description := js "Could not retrieve page information";
       row_favicon_url := None |} in
  (dbfails = false ->
   fst out = <[code := placeholder]> tbl
   /\ fst out !! code = Some placeholder
   /\ (forall other, other <> code -> fst out !! other = tbl !! other)
   /\ snd out = Json 200 {| p_short_code := code; p_url := url;
                            p_title := js "Unable to fetch title";
                            p_description :=
                              js "Could not retrieve page information";
                            p_favicon_url := None;
                            p_status := "success" |})
  /\ (dbfails = true ->
      out = (tbl, Error 500 "Failed to store metadata")).
Proof.
  intros Hc Hu Hfail out placeholder. subst out placeholder.
  destruct code as [|c cs]; [congruence|].
  destruct url as [|x xs]; [congruence|].
  unfold post_metadata. cbn [short_code long_url].
  rewrite (fetchUrlMetadata_failed P (x :: xs) Hfail).
  split; intros ->; cbn [insert_or_replace fst snd title description
                          favicon_url unable_to_fetch].
  - split_and!; try reflexivity.
    + apply lookup_insert_eq.
    + intros other Hne. apply lookup_insert_ne. congruence.
  - reflexivity.
Qed.

Lemma failed_fetch_is_best_effort_witness :
  snd (post_metadata unreachable_site false ∅
         {| short_code := Some (js "abc123"); long_url := Some page_url |})
  = Json 200 {| p_short_code := js "abc123"; p_url := page_url;
                p_title := js "Unable to fetch title";
                p_description := js "Could not retrieve page information";
                p_favicon_url := None;
                p_status := "success" |}.
Proof.
  pose proof (failed_fetch_is_best_effort unreachable_site false ∅
                (js "abc123") page_url) as H.
  cbv zeta in H.
  destruct H as (H & _); [discriminate | discriminate | reflexivity |].
  destruct (H eq_refl) as (_ & _ & _ & Hresp). exact Hresp.
Defined.

(** C10. After a failed fetch the result has no favicon: [favicon_url] is
    [null]. That [null] is what the handler hands to the store and what
    it returns: whatever the store does, a row written for the code has
    no favicon and a payload sent back has none, and when the store
    accepts the write both are there. A favicon in a result means the
    page was fetched and loaded. *)
Theorem failed_fetch_favicon_is_null (P : Platform)
    (tbl : gmap jsstring Row) (code url : jsstring) :
  code <> [] -> url <> [] ->
  try_fetch P url = None ->
  favicon_url (fetchUrlMetadata P url) = None
  /\ (forall dbfails,
        let out := post_metadata P dbfails tbl
                     {| short_code := Some code; long_url := Some url |} in
        (fst out = tbl
         \/ exists row, fst out = <[code := row]> tbl
                        /\ row_favicon_url row = None)
        /\ (forall status payload,
              snd out = Json status payload -> p_favicon_url payload = None))
  /\ (let out := post_metadata P false tbl
                   {| short_code := Some code; long_url := Some url |} in
      (exists row, fst out !! code = Some row /\ row_favicon_url row = None)
      /\ exists payload,
           snd out = Json 200 payload /\ p_favicon_url payload = None)
  /\ (forall url' f,
        favicon_url (fetchUrlMetadata P url') = Some f ->
        exists data q,
          axios_get P url' = Some data /\ cheerio_load P data = Some q).
Proof.
  intros Hc Hu Hfail.
  destruct code as [|c cs]; [congruence|].
  destruct url as [|x xs]; [congruence|].
  split_and!.
  - rewrite (fetchUrlMetadata_failed P _ Hfail). reflexivity.
  - intros dbfails. cbv zeta. unfold post_metadata. cbn [short_code long_url].
    rewrite (fetchUrlMetadata_failed P _ Hfail).
    destruct dbfails; cbn [insert_or_replace fst snd].
    + split; [left; reflexivity | intros status payload [=]].
    + split; [right; eexists; split; reflexivity|].
      intros status payload [= _ <-]. reflexivity.
  - cbv zeta. unfold post_metadata. cbn [short_code long_url].
    rewrite (fetchUrlMetadata_failed P _ Hfail).
    cbn [insert_or_replace fst snd]. split.
    + eexists. split; [apply lookup_insert_eq | reflexivity].
    + eexists. split; reflexivity.
  - intros url' f Hf.
    destruct (fetchUrlMetadata_favicon P url' f Hf) as (data & q & H1 & H2 & _).
    eauto.
Qed.

Lemma failed_fetch_favicon_is_null_witness :
  favicon_url (fetchUrlMetadata unreachable_site page_url) = None.
Proof.
  apply (failed_fetch_favicon_is_null unreachable_site ∅ (js "abc123")
           page_url); [discriminate | discriminate | reflexivity].
Defined.

End NodeProps.

(** ** More about the redirect service *)
Module GoExtras.
Import Go GoProps.

Lemma after_draws_add (a b : nat) (s : State) :
  after_draws a (after_draws b s) = after_draws (a + b) s.
Proof. unfold after_draws; cbn. f_equal; lia. Qed.

(** Every way a creation request can end, with the state it leaves. [k]
    is the index of the draw that was accepted. *)
Lemma createShortURL_trace (fuel : nat) (w : World) (s s' : State)
    (b : body) (resp : response) :
  createShortURL fuel w s b = Some (s', resp) ->
  (exists msg, ShouldBindJSON b = inl msg /\ s' = s
     /\ resp = JSONError StatusBadRequest msg)
  \/ (exists req, ShouldBindJSON b = inr req
        /\ dbfail w (tick s) = true /\ s' = after_draws 1 s
        /\ resp = JSONError StatusInternalServerError "Database error")
  \/ (exists req k, ShouldBindJSON b = inr req
        /\ dbfail w (tick s) = false
        /\ (forall i, i < k -> accepted w s i = false)
        /\ accepted w s k = true
        /\ ((dbfail w (tick s + S k) = true
             /\ s' = next_tick (after_draws (S k) s)
             /\ resp = JSONError StatusInternalServerError
                         "Failed to create short URL")
            \/ (dbfail w (tick s + S k) = false
                /\ s' = add_log (LogCreated (draw w (rpos s) k) (LongURL req))
                          (set_urls (<[draw w (rpos s) k := LongURL req]> (urls s))
                             (next_tick (after_draws (S k) s)))
                /\ resp = JSONShorten StatusOK
                            {| ShortCode := draw w (rpos s) k;
                               ShortURL := "http://localhost:8000/"
                                           ++ draw w (rpos s) k;
                               RespLongURL := LongURL req |}))).
Proof.
  unfold createShortURL.
  destruct (ShouldBindJSON b) as [msg|req] eqn:Hb.
  { intros [= <- <-]. left. eauto. }
  rewrite (surjective_pairing (generateShortCode w s)).
  rewrite draw_0, generateShortCode_state.
  unfold query_count at 1. cbn [tick urls advance_rand].
  rewrite after_draws_1.
  destruct (dbfail w (tick s)) eqn:Hf.
  { intros [= <- <-]. right; left. eauto. }
  assert (Hloop : forall s3 c3,
    regenerate fuel w (after_draws 1 s) (draw w (rpos s) 0)
      (count_rows (urls s) (draw w (rpos s) 0)) = Some (s3, c3) ->
    exists k, (forall i, i < k -> accepted w s i = false)
      /\ accepted w s k = true /\ c3 = draw w (rpos s) k
      /\ s3 = after_draws (S k) s).
  { intros s3 c3 Hr.
    destruct (count_rows (urls s) (draw w (rpos s) 0)) as [|n] eqn:Hc.
    - rewrite regenerate_exit in Hr. injection Hr as <- <-.
      exists 0. split_and!; [intros i Hi; lia | | reflexivity | reflexivity].
      unfold accepted, fresh. replace (tick s + 0) with (tick s) by lia.
      rewrite Hf, Hc. reflexivity.
    - apply regenerate_Some in Hr; [|lia].
      destruct Hr as (k & _ & Hrej & Hok & -> & ->).
      rewrite <- after_draws_1 in Hrej, Hok.
      exists (S k). split_and!.
      + intros [|i] Hi.
        * unfold accepted, fresh. rewrite Hc. apply andb_false_r.
        * rewrite <- accepted_shift. apply Hrej. lia.
      + rewrite <- accepted_shift. exact Hok.
      + cbn [rpos after_draws].
        replace (rpos s + 6 * 1) with (rpos s + 6) by lia. apply draw_shift.
      + rewrite after_draws_add. f_equal. lia. }
  destruct (regenerate fuel w (after_draws 1 s) (draw w (rpos s) 0)
              (count_rows (urls s) (draw w (rpos s) 0)))
    as [[s3 c3]|]; [|discriminate].
  destruct (Hloop s3 c3 eq_refl) as (k & Hrej & Hok & -> & ->).
  assert (Hnone : urls s !! draw w (rpos s) k = None).
  { unfold accepted in Hok. apply andb_true_iff in Hok.
    apply fresh_lookup. tauto. }
  unfold exec_insert. cbn [tick urls after_draws].
  destruct (dbfail w (tick s + S k)) eqn:Hi.
  - intros [= <- <-]. right; right. exists req, k. split_and!; auto.
  - rewrite Hnone. intros [= <- <-]. right; right. exists req, k.
    split_and!; auto.
Qed.

Lemma ShouldBindJSON_inl (b : body) (msg : string) :
  ShouldBindJSON b = inl msg
  <-> b = Malformed msg
      \/ (msg = required_msg /\ (b = Object None \/ b = Object (Some ""))).
Proof.
  destruct b as [m|[u|]]; cbn [ShouldBindJSON].
  - split; [intros [= ->]; auto|].
    intros [[= ->] | (_ & [H | H])]; [reflexivity | discriminate | discriminate].
  - destruct (String.eqb_spec u "") as [->|Hne].
    + split; [intros [= <-]; auto|].
      intros [H | (-> & _)]; [discriminate | reflexivity].
    + split; [discriminate|].
      intros [H | (_ & [H | H])]; [discriminate | discriminate | congruence].
  - split; [intros [= <-]; auto|].
    intros [H | (-> & _)]; [discriminate | reflexivity].
Qed.

(** X1. [POST /api/shorten] answers 400 exactly when the body is not JSON,
    has no [long_url], or has the empty string for it; the message is the
    binder's, and the request then leaves the service as it found it: no
    random byte read, no statement sent, nothing logged. *)
Theorem bad_request_exactly (fuel : nat) (w : World) (s s' : State)
    (b : body) (msg : string) :
  createShortURL fuel w s b = Some (s', JSONError StatusBadRequest msg)
  <-> s' = s
      /\ (b = Malformed msg
          \/ (msg = required_msg
              /\ (b = Object None \/ b = Object (Some "")))).
Proof.
  rewrite <- ShouldBindJSON_inl. split.
  - intros H. apply createShortURL_trace in H.
    destruct H as [(m & Hb & -> & [= <-]) | [(req & _ & _ & _ & [=]) |
      (req & k & _ & _ & _ & _ & [(_ & _ & [=]) | (_ & _ & [=])])]].
    auto.
  - intros (-> & Hb). unfold createShortURL. rewrite Hb. reflexivity.
Qed.



(** X3. With a store that answers and a free code somewhere ahead in the
    random stream, a well-formed creation request is served: given enough
    iterations it answers 200, echoes the long URL as sent, gives the short
    URL as the fixed prefix followed by the code, and a lookup of the code
    right after is routed to the handler and answered 301 with the
    [Location] that [http.Redirect] makes of that long URL, which is the
    long URL itself when it is ASCII, has no line break and no blank at
    either end, and has a scheme or a host. *)
Theorem creation_succeeds (w : World) (s : State) (b : body)
    (req : ShortenRequest) (k : nat) :
  ShouldBindJSON b = inr req ->
  (forall i, dbfail w (tick s + i) = false) ->
  urls s !! draw w (rpos s) k = None ->
  exists fuel s' r,
    createShortURL fuel w s b = Some (s', JSONShorten StatusOK r)
    /\ RespLongURL r = LongURL req
    /\ ShortURL r = "http://localhost:8000/" ++ ShortCode r
    /\ urls s' !! ShortCode r = Some (LongURL req)
    /\ forall now net,
         serve fuel w s' (GET_code (ShortCode r) now net)
         = Some (serve_GET w s' (ShortCode r) now net)
         /\ snd (serve_GET w s' (ShortCode r) now net)
            = Redirect StatusMovedPermanently
                (Location (url_Parse w (LongURL req)) "/" (LongURL req))
         /\ (is_ASCII (LongURL req) = true ->
             header_clean (LongURL req) = true ->
             url_Parse w (LongURL req) = None
             \/ (exists p, url_Parse w (LongURL req) = Some p
                           /\ (Scheme p <> "" \/ Host p <> "")) ->
             snd (serve_GET w s' (ShortCode r) now net)
             = Redirect StatusMovedPermanently (LongURL req)).
Proof.
  intros Hb Hdb Hk.
  assert (H0 : dbfail w (tick s) = false).
  { rewrite <- (Nat.add_0_r (tick s)). apply Hdb. }
  assert (Hacc : accepted w s k = true).
  { unfold accepted. rewrite Hdb. apply fresh_lookup in Hk. rewrite Hk.
    reflexivity. }
  assert (Hret : exists s3 c3,
    regenerate k w (after_draws 1 s) (draw w (rpos s) 0)
      (count_rows (urls s) (draw w (rpos s) 0)) = Some (s3, c3)).
  { destruct (count_rows (urls s) (draw w (rpos s) 0)) as [|n] eqn:Hc.
    - rewrite regenerate_exit. eauto.
    - destruct k as [|k'].
      + exfalso. unfold count_rows in Hc. rewrite Hk in Hc. discriminate.
      + apply regenerate_returns; [lia|].
        rewrite <- after_draws_1, accepted_shift. exact Hacc. }
  destruct Hret as (s3 & c3 & Hr).
  assert (Hsome : exists out, createShortURL k w s b = Some out).
  { unfold createShortURL. rewrite Hb.
    rewrite (surjective_pairing (generateShortCode w s)).
    rewrite draw_0, generateShortCode_state.
    unfold query_count at 1. cbn [tick urls advance_rand].
    rewrite after_draws_1.
    rewrite H0, Hr.
    destruct (exec_insert w s3 c3 (LongURL req)) as [s4 [e|u]]; eauto. }
  destruct Hsome as ([s' resp] & Hc).
  pose proof (createShortURL_trace _ _ _ _ _ _ Hc) as Ht.
  destruct Ht as [(m & Hm & _) | [(r0 & _ & Hf & _) |
    (r0 & j & Hb' & _ & _ & _ & [(Hi & _) | (_ & -> & ->)])]].
  - congruence.
  - congruence.
  - rewrite Hdb in Hi. discriminate.
  - assert (r0 = req) as -> by congruence.
    assert (Hparam : is_param (draw w (rpos s) j) = true).
    { apply well_formed_param.
      apply (createShortURL_code _ _ _ _ _ _ _ Hc). }
    exists k. eexists. eexists. split; [exact Hc|].
    cbn [RespLongURL ShortURL ShortCode urls add_log set_urls].
    split_and!; try reflexivity.
    + apply lookup_insert_eq.
    + intros now net.
      assert (Hresp :
        snd (serve_GET w
               (add_log (LogCreated (draw w (rpos s) j) (LongURL req))
                  (set_urls (<[draw w (rpos s) j := LongURL req]> (urls s))
                     (next_tick (after_draws (S j) s))))
               (draw w (rpos s) j) now net)
        = Redirect StatusMovedPermanently
            (Location (url_Parse w (LongURL req)) "/" (LongURL req))).
      { rewrite serve_GET_response.
        cbn [tick urls add_log set_urls next_tick after_draws].
        replace (S (tick s + S j)) with (tick s + S (S j)) by lia.
        rewrite Hdb, lookup_insert_eq.
        rewrite Location_param by exact Hparam. reflexivity. }
      split_and!.
      * cbn [serve]. rewrite Hparam. reflexivity.
      * exact Hresp.
      * intros Hascii Hclean Hp. rewrite Hresp.
        rewrite Location_not_relative by exact Hp.
        rewrite hexEscapeNonASCII_ASCII by exact Hascii.
        rewrite header_value_clean by exact Hclean. reflexivity.
Qed.

Lemma creation_succeeds_witness :
  exists fuel s' r,
    createShortURL fuel calm one_link example_body
    = Some (s', JSONShorten StatusOK r)
    /\ RespLongURL r = "https://example.com"
    /\ ShortURL r = "http://localhost:8000/" ++ ShortCode r
    /\ urls s' !! ShortCode r = Some "https://example.com"
    /\ forall now net,
         snd (serve_GET calm s' (ShortCode r) now net)
         = Redirect StatusMovedPermanently "https://example.com".
Proof.
  destruct (creation_succeeds calm one_link example_body
              {| LongURL := "https://example.com" |} 1)
    as (fuel & s' & r & Hc & H1 & H2 & H3 & H4).
  - reflexivity.
  - intros i. reflexivity.
  - vm_compute. reflexivity.
  - exists fuel, s', r. split_and!; auto.
    intros now net. destruct (H4 now net) as (_ & _ & H5).
    apply H5; [vm_compute; reflexivity | vm_compute; reflexivity |].
    right. eexists. split; [vm_compute; reflexivity|]. left. discriminate.
Defined.

(** *** Sessions *)

(** What one request does to table, codes and outbox. *)
Lemma serve_step (fuel : nat) (w : World) (s s' : State) (r : request)
    (resp : response) :
  serve fuel w s r = Some (s', resp) ->
  match resp with
  | JSONShorten _ sr =>
      urls s !! ShortCode sr = None
      /\ urls s' = <[ShortCode sr := RespLongURL sr]> (urls s)
      /\ posts s' = posts s
      /\ exists b, r = POST_shorten b
  | JSONError _ _ => urls s' = urls s /\ posts s' = posts s
  | Redirect _ _ =>
      urls s' = urls s
      /\ exists c now net,
           r = GET_code c now net /\ is_param c = true
           /\ posts s' = (posts s
                          ++ [{| ev_short_code := c; ev_clicked_at := now |}])%list
  | NoRoute => s' = s
  end.
Proof.
  destruct r as [b|c now net]; cbn [serve].
  - intros H. apply createShortURL_trace in H.
    destruct H as [(m & _ & -> & ->) | [(req & _ & _ & -> & ->) |
      (req & k & _ & _ & _ & Hok & [(_ & -> & ->) | (_ & -> & ->)])]];
      cbn; auto.
    split_and!; eauto.
    unfold accepted in Hok. apply andb_true_iff in Hok.
    apply fresh_lookup. tauto.
  - destruct (is_param c) eqn:Hparam; [|intros [= <- <-]; reflexivity].
    intros [= H]. revert H.
    unfold serve_GET, redirect, query_long_url.
    destruct (dbfail w (tick s)); [intros [= <- <-]; cbn; auto|].
    destruct (urls s !! c) as [u|]; [|intros [= <- <-]; cbn; auto].
    intros [= <- <-].
    destruct (sendClickEvent_frame now net c (next_tick s))
      as (Hu & _ & _ & Hp & _).
    split; [exact Hu|]. exists c, now, net. split_and!; auto.
Qed.

Lemma run_cons (fuel : nat) (w : World) (s s2 : State) (r : request)
    (rs : list request) (resps : list response) :
  run fuel w s (r :: rs) = Some (s2, resps) ->
  exists s1 resp resps',
    serve fuel w s r = Some (s1, resp)
    /\ run fuel w s1 rs = Some (s2, resps')
    /\ resps = resp :: resps'.
Proof.
  cbn [run].
  destruct (serve fuel w s r) as [[s1 resp]|]; [|discriminate].
  destruct (run fuel w s1 rs) as [[s2' resps']|] eqn:Hr; [|discriminate].
  intros [= <- <-]. exists s1, resp, resps'. auto.
Qed.

Lemma run_created (fuel : nat) (w : World) (rs : list request) :
  forall s s' resps,
    run fuel w s rs = Some (s', resps) ->
    NoDup (created_codes resps)
    /\ (forall c, c ∈ created_codes resps ->
          urls s !! c = None /\ is_Some (urls s' !! c))
    /\ size (urls s') = size (urls s) + length (created_codes resps).
Proof.
  induction rs as [|r rs IH]; intros s s' resps.
  - cbn [run]. intros [= <- <-]. cbn. split_and!.
    + constructor.
    + intros c Hc. inversion Hc.
    + lia.
  - intros H. apply run_cons in H.
    destruct H as (s1 & resp & resps' & Hs & Hr & ->).
    destruct (IH _ _ _ Hr) as (Hnd & Hin & Hsz).
    pose proof (serve_step _ _ _ _ _ _ Hs) as Hstep.
    destruct resp as [st m|st sr|st loc|]; cbn [created_codes];
      [| | |subst s1; auto].
    + destruct Hstep as (Hu & _). rewrite Hu in *. auto.
    + destruct Hstep as (Hnone & Hu & _ & _).
      assert (Hhere : urls s1 !! ShortCode sr = Some (RespLongURL sr))
        by (rewrite Hu; apply lookup_insert_eq).
      split_and!.
      * apply NoDup_cons. split; [|exact Hnd].
        intros Hc. apply Hin in Hc. destruct Hc as [Hc _]. congruence.
      * intros c Hc. apply elem_of_cons in Hc. destruct Hc as [-> | Hc].
        -- split; [exact Hnone|].
           exists (RespLongURL sr). eapply run_keeps; eauto.
        -- destruct (Hin c Hc) as [Hc1 Hc2]. split; [|exact Hc2].
           rewrite Hu in Hc1.
           destruct (decide (c = ShortCode sr)) as [->|Hne].
           ++ rewrite lookup_insert_eq in Hc1. discriminate.
           ++ rewrite lookup_insert_ne in Hc1 by congruence. exact Hc1.
      * rewrite Hsz, Hu. rewrite map_size_insert_None by exact Hnone.
        cbn [length]. lia.
    + destruct Hstep as (Hu & _). rewrite Hu in *. auto.
Qed.

(** X4. The codes handed out by the creations of a session are pairwise
    distinct, none of them was in the table when the session began, and
    all of them are in it when the session ends. *)
Theorem created_codes_distinct (fuel : nat) (w : World) (s s' : State)
    (rs : list request) (resps : list response) :
  run fuel w s rs = Some (s', resps) ->
  NoDup (created_codes resps)
  /\ forall c, c ∈ created_codes resps ->
       urls s !! c = None /\ is_Some (urls s' !! c).
Proof.
  intros H. destruct (run_created _ _ _ _ _ _ H) as (H1 & H2 & _). auto.
Qed.

Lemma created_codes_distinct_witness :
  run 2 calm fresh_start sample_session = Some (after_session, sample_replies)
  /\ NoDup (created_codes sample_replies)
  /\ forall c, c ∈ created_codes sample_replies ->
       urls fresh_start !! c = None /\ is_Some (urls after_session !! c).
Proof.
  split; [vm_compute; reflexivity|].
  apply (created_codes_distinct 2 calm fresh_start after_session
           sample_session sample_replies).
  vm_compute. reflexivity.
Defined.

(** X5. Over a session the table grows by exactly one row for each
    creation answered 200, and by nothing else: no request removes a row,
    and failed creations and lookups add none. *)
Theorem table_grows_by_creations (fuel : nat) (w : World) (s s' : State)
    (rs : list request) (resps : list response) :
  run fuel w s rs = Some (s', resps) ->
  size (urls s') = size (urls s) + length (created_codes resps).
Proof.
  intros H. destruct (run_created _ _ _ _ _ _ H) as (_ & _ & H3). exact H3.
Qed.

Lemma table_grows_by_creations_witness :
  run 2 calm fresh_start sample_session = Some (after_session, sample_replies)
  /\ size (urls after_session)
     = size (urls fresh_start) + length (created_codes sample_replies).
Proof.
  split; [vm_compute; reflexivity|].
  apply (table_grows_by_creations 2 calm fresh_start after_session
           sample_session sample_replies).
  vm_compute. reflexivity.
Defined.

(** *** Redirects and their goroutines *)

Lemma redirect_spawns (w : World) (s : State) (c : string) :
  match redirect w s c with
  | (s', Redirect _ _, spawned) => spawned = Some c /\ posts s' = posts s
  | (s', _, spawned) => spawned = None /\ posts s' = posts s
  end.
Proof.
  unfold redirect, query_long_url, c_Redirect.
  destruct (dbfail w (tick s)); [auto|].
  destruct (urls s !! c); auto.
Qed.

Lemma createShortURL_posts (fuel : nat) (w : World) (s s' : State)
    (b : body) (resp : response) :
  createShortURL fuel w s b = Some (s', resp) ->
  posts s' = posts s /\ forall st loc, resp <> Redirect st loc.
Proof.
  intros H. apply createShortURL_trace in H.
  destruct H as [(m & _ & -> & ->) | [(req & _ & _ & -> & ->) |
    (req & k & _ & _ & _ & _ & [(_ & -> & ->) | (_ & -> & ->)])]];
    split; try reflexivity; intros st loc; discriminate.
Qed.

(** One action keeps the account: the codes of the events sent and of the
    goroutines pending grow by the code of a lookup answered with a
    redirect, and by nothing else. *)
Lemma step_account (fuel : nat) (w : World) (sys sys' : System)
    (a : action) (out : option response) :
  step fuel w sys a = Some (sys', out) ->
  map ev_short_code (posts (service sys')) ++ pending sys'
  ≡ₚ map ev_short_code (posts (service sys)) ++ pending sys
     ++ redirected [a] [out].
Proof.
  destruct a as [b|c|i now net]; cbn [step].
  - destruct (createShortURL fuel w (service sys) b) as [[s' resp]|] eqn:Hc;
      [|discriminate].
    intros [= <- <-]. cbn [service pending redirected].
    rewrite (proj1 (createShortURL_posts _ _ _ _ _ _ Hc)), app_nil_r.
    reflexivity.
  - destruct (is_param c).
    + pose proof (redirect_spawns w (service sys) c) as Hsp.
      destruct (redirect w (service sys) c) as [[s' resp] spawned].
      intros [= <- <-]. cbn [service pending].
      destruct resp as [st m|st sr|st loc|]; destruct Hsp as [-> ->];
        cbn [spawn redirected]; rewrite ?app_nil_r; reflexivity.
    + intros [= <- <-]. cbn [redirected]. rewrite app_nil_r. reflexivity.
  - destruct (pending sys !! i) as [c|] eqn:Hi.
    + intros [= <- <-]. cbn [service pending redirected].
      rewrite (proj1 (proj2 (proj2 (proj2
                 (sendClickEvent_frame now net c (service sys)))))).
      rewrite map_app, app_nil_r. cbn [map ev_short_code].
      rewrite (delete_Permutation (pending sys) i c Hi) at 2.
      rewrite <- app_assoc. cbn [app].
      apply Permutation_app_head. reflexivity.
    + intros [= <- <-]. cbn [redirected]. rewrite app_nil_r. reflexivity.
Qed.

Lemma step_posts (fuel : nat) (w : World) (sys sys' : System)
    (a : action) (out : option response) :
  step fuel w sys a = Some (sys', out) ->
  exists new, posts (service sys') = (posts (service sys) ++ new)%list
    /\ forall e, e ∈ new ->
         exists i now net, a = Goroutine i now net
           /\ pending sys !! i = Some (ev_short_code e)
           /\ ev_clicked_at e = now.
Proof.
  destruct a as [b|c|i now net]; cbn [step].
  - destruct (createShortURL fuel w (service sys) b) as [[s' resp]|] eqn:Hc;
      [|discriminate].
    intros [= <- <-]. exists []. cbn [service].
    rewrite (proj1 (createShortURL_posts _ _ _ _ _ _ Hc)), app_nil_r.
    split; [reflexivity|]. intros e He. inversion He.
  - destruct (is_param c).
    + pose proof (redirect_spawns w (service sys) c) as Hsp.
      destruct (redirect w (service sys) c) as [[s' resp] spawned].
      intros [= <- <-]. exists []. cbn [service]. rewrite app_nil_r.
      split; [|intros e He; inversion He].
      destruct resp; tauto.
    + intros [= <- <-]. exists []. rewrite app_nil_r.
      split; [reflexivity|]. intros e He. inversion He.
  - destruct (pending sys !! i) as [c|] eqn:Hi.
    + intros [= <- <-]. cbn [service].
      exists [{| ev_short_code := c; ev_clicked_at := now |}].
      split; [apply sendClickEvent_frame|].
      intros e He. apply list_elem_of_singleton in He. subst e.
      exists i, now, net. auto.
    + intros [= <- <-]. exists []. rewrite app_nil_r.
      split; [reflexivity|]. intros e He. inversion He.
Qed.

Lemma redirected_cons (a : action) (out : option response)
    (acts : list action) (outs : list (option response)) :
  redirected (a :: acts) (out :: outs)
  = (redirected [a] [out] ++ redirected acts outs)%list.
Proof.
  destruct a as [b|c|i now net]; try reflexivity.
  destruct out as [[st m|st sr|st loc|]|]; reflexivity.
Qed.



(** *** How much of the random draw a code keeps *)

Lemma for_all_bytes_spec (p : Byte.byte -> bool) :
  for_all_bytes p = true -> forall b, p b = true.
Proof.
  unfold for_all_bytes. rewrite forallb_forall. intros H b.
  specialize (H (N.to_nat (Byte.to_N b))).
  rewrite N2Nat.id, Byte.of_to_N in H. apply H.
  apply in_seq. pose proof (Byte.to_N_bounded b). lia.
Qed.

Lemma for_all_sextets_spec (p : N -> bool) :
  for_all_sextets p = true -> forall i, (i < 64)%N -> p i = true.
Proof.
  unfold for_all_sextets. rewrite forallb_forall. intros H i Hi.
  specialize (H (N.to_nat i)). rewrite N2Nat.id in H. apply H.
  apply in_seq. lia.
Qed.

Lemma b2N_inj (a b : Byte.byte) : b2N a = b2N b -> a = b.
Proof.
  unfold b2N. intros H.
  apply (f_equal Byte.of_N) in H. rewrite !Byte.of_to_N in H. congruence.
Qed.

(** The table has no repeated character. *)
Lemma enc_inj (i j : N) : enc i = enc j -> N.land i 63 = N.land j 63.
Proof.
  pose proof (land_63_lt i) as Hi. pose proof (land_63_lt j) as Hj.
  unfold enc.
  set (x := N.land i 63) in *. set (y := N.land j 63) in *. clearbody x y.
  revert y Hj. revert x Hi.
  assert (H : for_all_sextets (fun x => for_all_sextets (fun y =>
     implb (Ascii.eqb
       match String.get (N.to_nat x) encodeURL with Some c => c | None => padChar end
       match String.get (N.to_nat y) encodeURL with Some c => c | None => padChar end)
       (N.eqb x y))) = true) by (vm_compute; reflexivity).
  intros x Hx y Hy E.
  pose proof (for_all_sextets_spec _ (for_all_sextets_spec _ H x Hx) y Hy) as K.
  cbv beta in K. rewrite E, Ascii.eqb_refl in K. cbn in K.
  apply N.eqb_eq. exact K.
Qed.

Lemma enc_land (i : N) : enc (N.land i 63) = enc i.
Proof.
  unfold enc. change 63%N with (N.ones 6).
  rewrite !N.land_ones, N.Div0.mod_mod. reflexivity.
Qed.

Lemma byte_shiftr_hi (b : Byte.byte) (n : N) : (8 <= n)%N -> N.shiftr (b2N b) n = 0%N.
Proof.
  intros Hn. apply N.shiftr_eq_0.
  pose proof (Byte.to_N_bounded b) as Hb. unfold b2N.
  destruct (N.eq_dec (Byte.to_N b) 0%N) as [->|Hz]; [cbn; lia|].
  assert (H : (Byte.to_N b < 2 ^ 8)%N) by (change (2 ^ 8)%N with 256%N; lia).
  apply N.log2_lt_pow2 in H; lia.
Qed.

Lemma byte_shiftl_land (b : Byte.byte) (n : N) : (6 <= n)%N -> N.land (N.shiftl (b2N b) n) 63 = 0%N.
Proof.
  intros Hn. apply N.bits_inj_0. intros k.
  rewrite N.land_spec.
  destruct (N.lt_ge_cases k 6) as [Hk|Hk].
  - rewrite N.shiftl_spec_low by lia. reflexivity.
  - change 63%N with (N.ones 6). rewrite N.ones_spec_high by lia. apply andb_false_r.
Qed.

Lemma sextet_18 (a b c : Byte.byte) :
  N.land (N.shiftr (quantum a b c) 18) 63 = N.shiftr (b2N a) 2.
Proof.
  unfold quantum. rewrite !N.shiftr_lor.
  rewrite N.shiftr_shiftl_r by lia. rewrite N.shiftr_shiftl_r by lia.
  change (18 - 16)%N with 2%N. change (18 - 8)%N with 10%N.
  rewrite (byte_shiftr_hi b 10), (byte_shiftr_hi c 18) by lia.
  rewrite !N.lor_0_r.
  revert a. intros a.
  assert (H : for_all_bytes (fun a => N.eqb (N.land (N.shiftr (b2N a) 2) 63) (N.shiftr (b2N a) 2)) = true)
    by (vm_compute; reflexivity).
  apply N.eqb_eq. exact (for_all_bytes_spec _ H a).
Qed.

Lemma sextet_12 (a b c : Byte.byte) :
  N.land (N.shiftr (quantum a b c) 12) 63 =
  N.lor (N.land (N.shiftl (b2N a) 4) 63) (N.shiftr (b2N b) 4).
Proof.
  unfold quantum. rewrite !N.shiftr_lor.
  rewrite N.shiftr_shiftl_l by lia. rewrite N.shiftr_shiftl_r by lia.
  change (16 - 12)%N with 4%N. change (12 - 8)%N with 4%N.
  rewrite (byte_shiftr_hi c 12) by lia.
  rewrite !N.lor_0_r, N.land_lor_distr_l. f_equal.
  assert (H : for_all_bytes (fun b => N.eqb (N.land (N.shiftr (b2N b) 4) 63) (N.shiftr (b2N b) 4)) = true)
    by (vm_compute; reflexivity).
  apply N.eqb_eq. exact (for_all_bytes_spec _ H b).
Qed.

Lemma sextet_6 (a b c : Byte.byte) :
  N.land (N.shiftr (quantum a b c) 6) 63 =
  N.lor (N.land (N.shiftl (b2N b) 2) 63) (N.shiftr (b2N c) 6).
Proof.
  unfold quantum. rewrite !N.shiftr_lor.
  rewrite N.shiftr_shiftl_l by lia. rewrite N.shiftr_shiftl_l by lia.
  change (16 - 6)%N with 10%N. change (8 - 6)%N with 2%N.
  rewrite !N.land_lor_distr_l.
  rewrite (byte_shiftl_land a 10) by lia. rewrite N.lor_0_l. f_equal.
  assert (H : for_all_bytes (fun c => N.eqb (N.land (N.shiftr (b2N c) 6) 63) (N.shiftr (b2N c) 6)) = true)
    by (vm_compute; reflexivity).
  apply N.eqb_eq. exact (for_all_bytes_spec _ H c).
Qed.

Lemma sextet_0 (a b c : Byte.byte) :
  N.land (quantum a b c) 63 = N.land (b2N c) 63.
Proof.
  unfold quantum. rewrite !N.land_lor_distr_l.
  rewrite (byte_shiftl_land a 16), (byte_shiftl_land b 8) by lia.
  reflexivity.
Qed.

(** Decoding: two neighbouring sextets give back the byte they share. *)
Lemma first_byte (a b a' b' : Byte.byte) :
  N.shiftr (b2N a) 2 = N.shiftr (b2N a') 2 ->
  N.lor (N.land (N.shiftl (b2N a) 4) 63) (N.shiftr (b2N b) 4) =
  N.lor (N.land (N.shiftl (b2N a') 4) 63) (N.shiftr (b2N b') 4) ->
  a = a' /\ N.shiftr (b2N b) 4 = N.shiftr (b2N b') 4.
Proof.
  intros H0 H1.
  assert (D : for_all_bytes (fun a => for_all_bytes (fun b =>
     N.eqb (b2N a) (N.lor (N.shiftl (N.shiftr (b2N a) 2) 2)
        (N.shiftr (N.lor (N.land (N.shiftl (b2N a) 4) 63) (N.shiftr (b2N b) 4)) 4))
     && N.eqb (N.shiftr (b2N b) 4)
          (N.land (N.lor (N.land (N.shiftl (b2N a) 4) 63) (N.shiftr (b2N b) 4)) 15))) = true)
    by (vm_compute; reflexivity).
  pose proof (for_all_bytes_spec _ (for_all_bytes_spec _ D a) b) as K.
  pose proof (for_all_bytes_spec _ (for_all_bytes_spec _ D a') b') as K'.
  cbv beta in K, K'.
  apply andb_prop in K as [K1 K2]. apply andb_prop in K' as [K1' K2'].
  apply N.eqb_eq in K1, K2, K1', K2'.
  split.
  - apply b2N_inj. rewrite K1, K1', H0, H1. reflexivity.
  - rewrite K2, K2', H1. reflexivity.
Qed.

Lemma last_byte (b c b' c' : Byte.byte) :
  N.shiftr (b2N b) 4 = N.shiftr (b2N b') 4 ->
  N.lor (N.land (N.shiftl (b2N b) 2) 63) (N.shiftr (b2N c) 6) =
  N.lor (N.land (N.shiftl (b2N b') 2) 63) (N.shiftr (b2N c') 6) ->
  N.land (b2N c) 63 = N.land (b2N c') 63 ->
  b = b' /\ c = c'.
Proof.
  intros H1 H2 H3.
  assert (D : for_all_bytes (fun b => for_all_bytes (fun c =>
     N.eqb (b2N b) (N.lor (N.shiftl (N.shiftr (b2N b) 4) 4)
        (N.shiftr (N.lor (N.land (N.shiftl (b2N b) 2) 63) (N.shiftr (b2N c) 6)) 2))
     && N.eqb (b2N c)
          (N.lor (N.shiftl (N.land (N.lor (N.land (N.shiftl (b2N b) 2) 63) (N.shiftr (b2N c) 6)) 3) 6)
                 (N.land (b2N c) 63)))) = true)
    by (vm_compute; reflexivity).
  pose proof (for_all_bytes_spec _ (for_all_bytes_spec _ D b) c) as K.
  pose proof (for_all_bytes_spec _ (for_all_bytes_spec _ D b') c') as K'.
  cbv beta in K, K'.
  apply andb_prop in K as [K1 K2]. apply andb_prop in K' as [K1' K2'].
  apply N.eqb_eq in K1, K2, K1', K2'.
  split; apply b2N_inj.
  - rewrite K1, K1', H1, H2. reflexivity.
  - rewrite K2, K2', H2, H3. reflexivity.
Qed.

Lemma code_of_bytes (a b c d e f a' b' c' d' e' f' : Byte.byte) :
  String.substring 0 6 (EncodeToString [a; b; c; d; e; f]) =
  String.substring 0 6 (EncodeToString [a'; b'; c'; d'; e'; f']) <->
  a = a' /\ b = b' /\ c = c' /\ d = d' /\
  N.shiftr (b2N e) 4 = N.shiftr (b2N e') 4.
Proof.
  rewrite !EncodeToString_6. cbn [String.substring].
  split.
  - intros [= E1 E2 E3 E4 E5 E6].
    apply enc_inj in E1, E2, E3, E4, E5, E6.
    rewrite !sextet_18 in E1, E5. rewrite !sextet_12 in E2, E6.
    rewrite !sextet_6 in E3. rewrite !sextet_0 in E4.
    destruct (first_byte _ _ _ _ E1 E2) as [-> Hb].
    destruct (last_byte _ _ _ _ Hb E3 E4) as [-> ->].
    destruct (first_byte _ _ _ _ E5 E6) as [-> He].
    auto.
  - intros (-> & -> & -> & -> & He).
    do 4 f_equal.
    f_equal.
    + rewrite <- (enc_land (N.shiftr (quantum d' e f) 18)), <- (enc_land (N.shiftr (quantum d' e' f') 18)).
      rewrite !sextet_18. reflexivity.
    + f_equal.
      rewrite <- (enc_land (N.shiftr (quantum d' e f) 12)), <- (enc_land (N.shiftr (quantum d' e' f') 12)).
      rewrite !sextet_12, He. reflexivity.
Qed.

(** X7. A short code carries 36 of the 48 random bits drawn for it: two
    draws give the same code exactly when they agree on their first four
    bytes and on the upper half of the fifth. The lower half of the fifth
    byte and the whole sixth never reach the code. *)
Theorem short_code_is_36_bits (w w' : World) (s s' : State) :
  snd (generateShortCode w s) = snd (generateShortCode w' s') <->
  (forall i, i < 4 -> rnd w (rpos s + i) = rnd w' (rpos s' + i)) /\
  N.shiftr (b2N (rnd w (rpos s + 4))) 4 = N.shiftr (b2N (rnd w' (rpos s' + 4))) 4.
Proof.
  unfold generateShortCode, rand_Read. cbn [snd seq map].
  rewrite code_of_bytes.
  replace (rpos s + 4) with (S (S (S (S (rpos s))))) by lia.
  replace (rpos s' + 4) with (S (S (S (S (rpos s'))))) by lia.
  split.
  - intros (H0 & H1 & H2 & H3 & H4). split; [|exact H4].
    intros i Hi.
    destruct i as [|[|[|[|i]]]]; [| | | |lia].
    + rewrite !Nat.add_0_r. exact H0.
    + replace (rpos s + 1) with (S (rpos s)) by lia. replace (rpos s' + 1) with (S (rpos s')) by lia. exact H1.
    + replace (rpos s + 2) with (S (S (rpos s))) by lia. replace (rpos s' + 2) with (S (S (rpos s'))) by lia. exact H2.
    + replace (rpos s + 3) with (S (S (S (rpos s)))) by lia. replace (rpos s' + 3) with (S (S (S (rpos s')))) by lia. exact H3.
  - intros [H H4].
    pose proof (H 0 ltac:(lia)) as H0. pose proof (H 1 ltac:(lia)) as H1.
    pose proof (H 2 ltac:(lia)) as H2. pose proof (H 3 ltac:(lia)) as H3.
    rewrite !Nat.add_0_r in H0.
    replace (rpos s + 1) with (S (rpos s)) in H1 by lia. replace (rpos s' + 1) with (S (rpos s')) in H1 by lia.
    replace (rpos s + 2) with (S (S (rpos s))) in H2 by lia. replace (rpos s' + 2) with (S (S (rpos s'))) in H2 by lia.
    replace (rpos s + 3) with (S (S (S (rpos s)))) in H3 by lia. replace (rpos s' + 3) with (S (S (S (rpos s')))) in H3 by lia.
    auto.
Qed.

(** *** Where redirects lead *)

Lemma ShouldBindJSON_inr (b : body) (req : ShortenRequest) :
  ShouldBindJSON b = inr req ->
  b = Object (Some (LongURL req)) /\ LongURL req <> "".
Proof.
  destruct b as [m|[u|]]; cbn [ShouldBindJSON]; try discriminate.
  destruct (String.eqb u "") eqn:E; [discriminate|].
  intros [= <-]. cbn. split; [reflexivity|].
  intros ->. discriminate.
Qed.

Lemma submitted_later (r : request) (rs : list request) (u : string) :
  u ∈ submitted rs -> u ∈ submitted (r :: rs).
Proof.
  destruct r as [[m|[v|]]|c now net]; cbn [submitted]; auto.
  intros H. apply elem_of_cons. auto.
Qed.

(** Where the rows and the redirect of one request come from. *)
Lemma serve_provenance (fuel : nat) (w : World) (s s' : State) (r : request)
    (resp : response) :
  serve fuel w s r = Some (s', resp) ->
  (forall c u, urls s' !! c = Some u ->
     urls s !! c = Some u \/ (u ∈ submitted [r] /\ u <> ""))
  /\ (forall st loc, resp = Redirect st loc ->
        st = 301
        /\ exists c u, urls s !! c = Some u
                       /\ loc = Location (url_Parse w u) "/" u).
Proof.
  intros H. pose proof (serve_step _ _ _ _ _ _ H) as Hstep.
  split.
  - intros c u Hc. destruct resp as [st m|st sr|st loc|].
    + destruct Hstep as [Hu _]. rewrite Hu in Hc. auto.
    + destruct Hstep as (_ & Hu & _ & b & ->). rewrite Hu in Hc.
      cbn [serve] in H. apply createShortURL_trace in H.
      destruct H as [(m & _ & _ & [=]) | [(req & _ & _ & _ & [=]) |
        (req & k & Hb & _ & _ & _ & [(_ & _ & [=]) | (_ & _ & Hr)])]].
      injection Hr as _ ->. cbn [ShortCode RespLongURL] in Hc.
      apply ShouldBindJSON_inr in Hb. destruct Hb as [-> Hne].
      cbn [submitted].
      destruct (decide (c = draw w (rpos s) k)) as [->|Hd].
      * rewrite lookup_insert_eq in Hc. injection Hc as <-. right.
        split; [apply list_elem_of_singleton; reflexivity | exact Hne].
      * rewrite lookup_insert_ne in Hc by congruence. auto.
    + destruct Hstep as [Hu _]. rewrite Hu in Hc. auto.
    + subst s'. auto.
  - intros st loc ->. destruct Hstep as (_ & c & now & net & -> & Hparam & _).
    cbn [serve] in H. rewrite Hparam in H. injection H as H.
    apply (f_equal snd) in H. cbn [snd] in H.
    rewrite serve_GET_response in H.
    destruct (dbfail w (tick s)); [discriminate|].
    destruct (urls s !! c) as [u|] eqn:E; [|discriminate].
    injection H as <- <-. split; [reflexivity|].
    exists c, u. split; [exact E|]. apply Location_param. exact Hparam.
Qed.

Lemma run_provenance (fuel : nat) (w : World) (rs : list request) :
  forall s s' resps,
    run fuel w s rs = Some (s', resps) ->
    (forall c u, urls s' !! c = Some u ->
       urls s !! c = Some u \/ (u ∈ submitted rs /\ u <> ""))
    /\ (forall st loc, Redirect st loc ∈ resps ->
          st = 301
          /\ exists u, loc = Location (url_Parse w u) "/" u
               /\ ((exists c, urls s !! c = Some u)
                   \/ (u ∈ submitted rs /\ u <> ""))).
Proof.
  induction rs as [|r rs IH]; intros s s' resps.
  - cbn [run]. intros [= <- <-]. split; [auto|].
    intros st loc Hin. inversion Hin.
  - intros H. apply run_cons in H.
    destruct H as (s1 & resp & resps' & Hs & Hr & ->).
    destruct (IH _ _ _ Hr) as (Htbl & Hred).
    destruct (serve_provenance _ _ _ _ _ _ Hs) as (Htbl1 & Hred1).
    assert (Hone : forall u, u ∈ submitted [r] -> u ∈ submitted (r :: rs)).
    { intros u. destruct r as [[m|[v|]]|c now net]; cbn [submitted];
        try (intros Hu; inversion Hu; fail).
      intros Hu. apply list_elem_of_singleton in Hu. subst.
      apply elem_of_cons. auto. }
    assert (Hfrom1 : forall c u, urls s1 !! c = Some u ->
              urls s !! c = Some u \/ (u ∈ submitted (r :: rs) /\ u <> "")).
    { intros c u Hc. destruct (Htbl1 c u Hc) as [?|[? ?]]; auto. }
    split.
    + intros c u Hc. destruct (Htbl c u Hc) as [H1|[H1 H2]].
      * apply Hfrom1. exact H1.
      * right. split; [apply submitted_later; exact H1 | exact H2].
    + intros st loc Hin. apply elem_of_cons in Hin.
      destruct Hin as [Heq|Hin].
      * destruct (Hred1 st loc (eq_sym Heq)) as (-> & c & u & Hc & ->).
        split; [reflexivity|]. exists u. split; [reflexivity|]. eauto.
      * destruct (Hred st loc Hin) as (-> & u & -> & [(c & Hc)|[H1 H2]]).
        -- split; [reflexivity|]. exists u. split; [reflexivity|].
           destruct (Hfrom1 c u Hc) as [?|?]; eauto.
        -- split; [reflexivity|]. exists u. split; [reflexivity|]. right.
           split; [apply submitted_later; exact H1 | exact H2].
Qed.

(** X8. Every redirect that the service issues in a session is a 301
    whose [Location] is what [http.Redirect] makes of a URL that was in
    the table when the session began or is the non-empty [long_url] of a
    creation request of that session: the service sends nobody to an
    address that was not submitted to it. *)
Theorem redirects_only_to_submitted (fuel : nat) (w : World) (s s' : State)
    (rs : list request) (resps : list response) (st : nat) (loc : string) :
  run fuel w s rs = Some (s', resps) ->
  Redirect st loc ∈ resps ->
  st = 301
  /\ exists u, loc = Location (url_Parse w u) "/" u
       /\ ((exists c, urls s !! c = Some u)
           \/ (u ∈ submitted rs /\ u <> "")).
Proof.
  intros H Hin. destruct (run_provenance _ _ _ _ _ _ H) as (_ & Hred).
  exact (Hred st loc Hin).
Qed.

Lemma redirects_only_to_submitted_witness :
  (run 2 calm fresh_start sample_session = Some (after_session, sample_replies)
   /\ Redirect 301 "https://example.org/" ∈ sample_replies)
  /\ 301 = 301
  /\ exists u,
       "https://example.org/" = Location (url_Parse calm u) "/" u
       /\ ((exists c, urls fresh_start !! c = Some u)
           \/ (u ∈ submitted sample_session /\ u <> "")).
Proof.
  assert (Hin : Redirect 301 "https://example.org/" ∈ sample_replies).
  { unfold sample_replies. apply elem_of_cons. right.
    apply elem_of_cons. left. reflexivity. }
  split; [split; [vm_compute; reflexivity | exact Hin]|].
  apply (redirects_only_to_submitted 2 calm fresh_start after_session
           sample_session sample_replies).
  - vm_compute. reflexivity.
  - exact Hin.
Defined.

End GoExtras.

(** ** More about the metadata service *)
Module NodeExtras.
Import Node NodeProps.

Local Open Scope list_scope.

Lemma substring_0 (n : nat) (s : jsstring) : substring 0 n s = firstn n s.
Proof.
  unfold substring. rewrite Nat.min_0_l, Nat.max_0_l, Nat.sub_0_r.
  cbn [skipn].
  destruct (Nat.le_ge_cases n (length s)) as [H|H].
  - rewrite Nat.min_l by exact H. reflexivity.
  - rewrite Nat.min_r by exact H.
    rewrite firstn_all, firstn_all2 by exact H. reflexivity.
Qed.

Lemma substring_0_filled (n : nat) (s : jsstring) :
  s <> [] -> substring 0 (S n) s <> [] /\ length (substring 0 (S n) s) <= S n.
Proof.
  intros Hs. rewrite substring_0. split.
  - destruct s; [congruence|]. discriminate.
  - apply firstn_le_length.
Qed.

Lemma if_falsy_chain (v1 v2 : option jsstring) (c : N) (r : jsstring) :
  exists d, if_falsy (if_falsy v1 v2) (Some (c :: r)) = Some d /\ d <> []
    /\ (forall x, v1 = Some x -> x <> [] -> d = x)
    /\ (truthy v1 = false -> forall x, v2 = Some x -> x <> [] -> d = x)
    /\ (truthy v1 = false -> truthy v2 = false -> d = c :: r).
Proof.
  destruct v1 as [[|c1 r1]|], v2 as [[|c2 r2]|]; cbn;
    eexists; (split; [reflexivity|]); split_and!;
    try discriminate; try congruence; intros; congruence.
Qed.

Lemma resolve_favicon_nonempty (P : Platform) (url : jsstring)
    (v : option jsstring) (f : jsstring) :
  resolve_favicon P url v = Some f -> f <> [].
Proof.
  unfold resolve_favicon.
  assert (Hd : forall a b c : jsstring, a ++ js "//" ++ b ++ c <> []).
  { intros a b c H. apply (f_equal (@length N)) in H.
    rewrite !length_app in H. cbn in H. lia. }
  destruct v as [[|c r]|].
  - destruct (newURL P url) as [u|]; cbn; [|discriminate].
    intros [= <-]. apply Hd.
  - destruct (startsWith (c :: r) (js "/")).
    + destruct (newURL P url) as [u|]; cbn; [|discriminate].
      intros [= <-]. apply Hd.
    + destruct (negb (startsWith (c :: r) (js "http"))).
      * destruct (newURL P url) as [u|]; cbn; [|discriminate].
        intros [= <-]. apply Hd.
      * intros [= <-]. discriminate.
  - destruct (newURL P url) as [u|]; cbn; [|discriminate].
    intros [= <-]. apply Hd.
Qed.

(** What a completed [try] block returns. *)
Lemma try_fetch_Some (P : Platform) (url : jsstring) (m : Metadata) :
  try_fetch P url = Some m ->
  exists data q t d f,
    axios_get P url = Some data /\ cheerio_load P data = Some q
    /\ if_falsy (if_falsy (Some (trim (text (q sel_title))))
                          (attr (q sel_og_title) (js "content")))
                (Some (js "No title found")) = Some t
    /\ if_falsy (if_falsy (attr (q sel_description) (js "content"))
                          (attr (q sel_og_description) (js "content")))
                (Some (js "No description available")) = Some d
    /\ resolve_favicon P url (favicon_loop q faviconSelectors None) = Some f
    /\ m = {| title := substring 0 200 t;
              description := substring 0 500 d;
              favicon_url := Some f |}.
Proof.
  unfold try_fetch.
  destruct (axios_get P url) as [data|] eqn:Hget; [|discriminate].
  cbn [mbind option_bind].
  destruct (cheerio_load P data) as [q|] eqn:Hload; [|discriminate].
  cbn [mbind option_bind].
  destruct (resolve_favicon P url (favicon_loop q faviconSelectors None))
    as [f|] eqn:Hf; [|discriminate].
  cbn [mbind option_bind].
  destruct (if_falsy (if_falsy (Some (trim (text (q sel_title)))) _) _)
    as [t|] eqn:Ht; [|discriminate].
  cbn [mbind option_bind].
  destruct (if_falsy (if_falsy (attr (q sel_description) (js "content")) _) _)
    as [d|] eqn:Hd; [|discriminate].
  cbn [mbind option_bind].
  intros [= <-]. exists data, q, t, d, f. split_and!; auto.
Qed.

(** X9. On a page that was fetched and loaded, as long as the favicon
    step does not throw, the description returned is the first 500 code
    units of: the [content] of the [description] tag when there is one and
    it is not empty; otherwise the [content] of the [og:description] tag
    when there is one and it is not empty; otherwise [No description
    available]. Unlike the title, it is not trimmed. When the favicon step
    throws, the description is that of the failed fetch. *)
Theorem description_fallback_chain (P : Platform) (url : jsstring)
    (data : Data P) (q : Cheerio) :
  axios_get P url = Some data ->
  cheerio_load P data = Some q ->
  let primary := attr (q sel_description) (js "content") in
  let og := attr (q sel_og_description) (js "content") in
  let icon := favicon_loop q faviconSelectors None in
  let result := description (fetchUrlMetadata P url) in
  (is_Some (resolve_favicon P url icon) ->
   (forall d, primary = Some d -> d <> [] -> result = firstn 500 d)
   /\ (truthy primary = false ->
       forall d, og = Some d -> d <> [] -> result = firstn 500 d)
   /\ (truthy primary = false -> truthy og = false ->
       result = js "No description available"))
  /\ (resolve_favicon P url icon = None ->
      result = js "Could not retrieve page information")
  /\ (resolve_favicon P url icon = None
      <-> newURL P url = None /\ calls_URL icon = true).
Proof.
  intros Hget Hload primary og icon result.
  destruct (try_fetch_outcome P url data q Hget Hload)
    as (t & d & _ & Hd & Hm).
  fold primary og in Hd. fold icon in Hm.
  split_and!.
  - intros [f Hf]. rewrite Hf in Hm.
    assert (Hres : result = firstn 500 d).
    { unfold result. rewrite Hm. apply substring_0. }
    destruct (if_falsy_chain primary og 78%N
                (tl (js "No description available")))
      as (d' & Hd' & _ & H1 & H2 & H3).
    change (78%N :: tl (js "No description available"))
      with (js "No description available") in Hd', H3.
    rewrite Hd in Hd'. injection Hd' as <-.
    split_and!.
    + intros x Hx Hne. rewrite Hres, (H1 x Hx Hne). reflexivity.
    + intros Hp x Hx Hne. rewrite Hres, (H2 Hp x Hx Hne). reflexivity.
    + intros Hp Ho. rewrite Hres, (H3 Hp Ho). reflexivity.
  - intros Hf. unfold result. rewrite Hm, Hf. reflexivity.
  - apply resolve_favicon_throws.
Qed.

Lemma description_fallback_chain_witness :
  description (fetchUrlMetadata (static_site sample_page) page_url)
  = firstn 500 (js " A page ")
  /\ description (fetchUrlMetadata (static_site []) page_url)
     = js "No description available".
Proof.
  split.
  - pose proof (description_fallback_chain (static_site sample_page)
                  page_url sample_page (load sample_page)
                  eq_refl eq_refl) as H.
    cbv zeta in H. destruct H as (H & _).
    destruct H as (H & _); [vm_compute; eauto|].
    apply H; [reflexivity | discriminate].
  - pose proof (description_fallback_chain (static_site []) page_url []
                  (load []) eq_refl eq_refl) as H.
    cbv zeta in H. destruct H as (H & _).
    destruct H as (_ & _ & H); [vm_compute; eauto|].
    apply H; reflexivity.
Defined.

(** X10. Whatever the page and whatever fails, the metadata returned has
    a title of 1 to 200 code units and a description of 1 to 500; it has
    no favicon exactly when the [try] block threw, and a favicon it has is
    never the empty string. *)
Theorem metadata_is_always_filled (P : Platform) (url : jsstring) :
  let m := fetchUrlMetadata P url in
  title m <> [] /\ length (title m) <= 200
  /\ description m <> [] /\ length (description m) <= 500
  /\ (favicon_url m = None <-> try_fetch P url = None)
  /\ favicon_url m <> Some [].
Proof.
  cbv zeta. unfold fetchUrlMetadata.
  destruct (try_fetch P url) as [m|] eqn:Htry.
  - destruct (try_fetch_Some P url m Htry)
      as (data & q & t & d & f & _ & _ & Ht & Hd & Hf & ->).
    cbn [title description favicon_url].
    destruct (if_falsy_chain (Some (trim (text (q sel_title))))
                (attr (q sel_og_title) (js "content"))
                78%N (tl (js "No title found"))) as (t' & Ht' & Hne & _).
    change (78%N :: tl (js "No title found")) with (js "No title found") in Ht'.
    rewrite Ht in Ht'. injection Ht' as <-.
    destruct (if_falsy_chain (attr (q sel_description) (js "content"))
                (attr (q sel_og_description) (js "content"))
                78%N (tl (js "No description available")))
      as (d' & Hd' & Hned & _).
    change (78%N :: tl (js "No description available"))
      with (js "No description available") in Hd'.
    rewrite Hd in Hd'. injection Hd' as <-.
    destruct (substring_0_filled 199 t Hne) as [T1 T2].
    destruct (substring_0_filled 499 d Hned) as [D1 D2].
    split_and!; auto.
    + split; discriminate.
    + intros [= ->]. exact (resolve_favicon_nonempty _ _ _ _ Hf eq_refl).
  - cbn. split_and!; try discriminate; try lia. split; reflexivity.
Qed.

(** X11. For a request whose [short_code] and [long_url] are each a JSON
    string or absent, [POST /api/metadata] answers 400 exactly when one of
    them is absent or the empty string. Every error answer is a 400 or a
    500 and leaves the table as it was; a payload is only sent with status
    200, after the store accepted the write, and repeats the two fields of
    the request. *)
Theorem missing_field_is_rejected (P : Platform) (dbfails : bool)
    (tbl : gmap jsstring Row) (b : Body) :
  let out := post_metadata P dbfails tbl b in
  (truthy (short_code b) = false \/ truthy (long_url b) = false
   <-> snd out = Error 400 "short_code and long_url are required")
  /\ (forall status msg, snd out = Error status msg ->
        fst out = tbl /\ (status = 400 \/ status = 500))
  /\ (forall status p, snd out = Json status p ->
        status = 200 /\ dbfails = false
        /\ short_code b = Some (p_short_code p) /\ p_short_code p <> []
        /\ long_url b = Some (p_url p) /\ p_url p <> []).
Proof.
  cbv zeta. unfold post_metadata.
  destruct b as [[[|c cs]|] [[|x xs]|]]; cbn [short_code long_url truthy];
    try (split_and!; [split; [reflexivity | intros _; auto]
                     | intros ? ? [= <- <-]; auto
                     | intros ? ? [=]]).
  destruct dbfails; cbn [insert_or_replace fst snd].
  - split_and!.
    + split; [intros [?|?]; discriminate | discriminate].
    + intros ? ? [= <- <-]. auto.
    + intros ? ? [=].
  - split_and!.
    + split; [intros [?|?]; discriminate | discriminate].
    + intros ? ? [=].
    + intros ? ? [= <- <-]. cbn. split_and!; auto; discriminate.
Qed.

End NodeExtras.
